(** * ffmpeg-bitrate-stats: the statistics engine of [bitrate_stats.py]

    A shallow embedding of [src/ffmpeg_bitrate_stats/bitrate_stats.py].
    Python floats are IEEE 754 binary64 numbers and are modelled by Rocq's
    primitive floats, Python integers by [Z], the value ["NaN"] that the
    source stores for a missing field by [None], the instance attributes by a
    record that the methods thread through a small state-and-exception monad,
    and the calls to the logger and to ffprobe by the events a method emits. *)

From Stdlib Require Import ZArith List String Bool Lia.
From Stdlib Require Import Floats.
From stdpp Require Import base list.

Import ListNotations.
Local Open Scope Z_scope.

(** ** Python's numbers *)

Module Py.

(** The exceptions the source can raise. *)
Inductive exn : Type :=
| ZeroDivisionError
| OverflowError
| ValueError (msg : string)
| RuntimeError (msg : string)
| SystemExit (code : Z).

Definition result (A : Type) : Type := (exn + A)%type.

(** A Python integer as an unrounded binary number [m * 2^0]. *)
Definition int_SF (z : Z) : spec_float :=
  match z with
  | Z0 => S754_zero false
  | Zpos p => S754_finite false p 0
  | Zneg p => S754_finite true p 0
  end.

(** [a / b] on integers: the correctly rounded quotient;
    [ZeroDivisionError] when [b] is zero and [OverflowError] when the
    quotient is beyond the range of a float. *)
Definition int_truediv (a b : Z) : result float :=
  if b =? 0 then inl ZeroDivisionError
  else match SFdiv prec emax (int_SF a) (int_SF b) with
       | S754_infinity _ => inl OverflowError
       | q => inr (SF2Prim q)
       end.

(** [x / y] on floats: IEEE division, except that a zero divisor (of either
    sign) raises. *)
Definition float_truediv (x y : float) : result float :=
  if PrimFloat.eqb y zero then inl ZeroDivisionError
  else inr (PrimFloat.div x y).

(** The float of a length. [len] is bounded by the machine's address
    space, so the conversion (round to nearest, ties to even) cannot
    overflow. *)
Definition float_of_len (n : nat) : float :=
  SF2Prim (binary_normalize prec emax (Z.of_nat n) 0 false).

(** [float(v)] for a field that holds a float or the string ["NaN"]. *)
Definition float_of_field (v : option float) : float :=
  match v with
  | Some x => x
  | None => nan
  end.

(** [sum(xs)] on floats: the items are added from left to right, starting
    from [0]. (CPython 3.12 and later compensate the rounding errors of the
    additions; with no item or one item there is none, and the properties
    below depend on the sum of more items only as a value.) *)
Definition sum_float (xs : list float) : float :=
  fold_left PrimFloat.add xs zero.

(** [sum(xs)] on integers. *)
Definition sum_int (xs : list Z) : Z :=
  fold_left Z.add xs 0.

(** [round(x, ndigits)] on a float, for [0 <= ndigits] (the source passes
    2 and 3): the exact binary value of [x] is rounded to the nearest
    multiple of [10^-ndigits], ties to the even multiple, and the float
    nearest to that decimal is returned. Zeros, infinities and
    not-a-number are returned as they are. *)
Definition round (x : float) (ndigits : Z) : float :=
  match Prim2SF x with
  | S754_finite s m e =>
      if 0 <=? e then x
      else
        let p := 10 ^ ndigits in
        let num := Zpos m * p in
        let den := 2 ^ (- e) in
        let q := num / den in
        let r := num mod den in
        let n := match 2 * r ?= den with
                 | Lt => q
                 | Gt => q + 1
                 | Eq => if Z.even q then q else q + 1
                 end in
        let dec := match n with
                   | Zpos k => S754_finite s k 0
                   | _ => S754_zero s
                   end in
        SF2Prim (SFdiv prec emax dec (int_SF p))
  | _ => x
  end.

(** [max(xs)] and [min(xs)]: the first item is the candidate, and a later
    item replaces it when [item > candidate] ([item < candidate] for
    [min]); an empty argument raises [ValueError]. *)
Definition max (xs : list float) : result float :=
  match xs with
  | [] => inl (ValueError "max() arg is an empty sequence")
  | x :: r =>
      inr (fold_left (fun best item => if PrimFloat.ltb best item then item else best) r x)
  end.

Definition min (xs : list float) : result float :=
  match xs with
  | [] => inl (ValueError "min() arg is an empty sequence")
  | x :: r =>
      inr (fold_left (fun best item => if PrimFloat.ltb item best then item else best) r x)
  end.

End Py.

(** ** The data model *)

Inductive StreamType : Type := audio | video.

Inductive Aggregation : Type := time | gop.

(** [Literal["I", "Non-I"]] *)
Inductive FrameType : Type := I_ | Non_I.

(** One entry of ffprobe's ["packets"] array, after [json.loads]: the
    [flags] string, the integer [int(...)] makes of the ["size"] field, and
    the two optional fields [pts_time] and [duration_time], here already read
    as the floats [float(...)] makes of them. *)
Record PacketInfo : Type := {
  flags : string;
  pts_time : option float;
  duration_time : option float;
  packet_size : Z;
}.

(** [FrameEntry]: [pts] and [duration] are a float or the string ["NaN"],
    which is [None] here. *)
Module FrameEntry.
Record t : Type := {
  n : Z;
  frame_type : FrameType;
  pts : option float;
  size : Z;
  duration : option float;
}.

(** [frame["duration"] = d] *)
Definition set_duration (frame : t) (d : option float) : t :=
  {| n := n frame; frame_type := frame_type frame; pts := pts frame;
     size := size frame; duration := d |}.
End FrameEntry.

(** [BitrateStatsSummary], with the keys of the source. *)
Module Summary.
Record t : Type := {
  input_file : string;
  stream_type : StreamType;
  avg_fps : float;
  num_frames : nat;
  avg_bitrate : float;
  avg_bitrate_over_chunks : float;
  max_bitrate : float;
  min_bitrate : float;
  max_bitrate_factor : float;
  bitrate_per_chunk : list float;
  aggregation : Aggregation;
  chunk_size : float;
  duration : float;
}.
End Summary.

(** The attributes of a [BitrateStats] instance. [chunk_size] is a number of
    seconds that the source only compares with floats and reports; it is
    held as a float. The last three attributes are first assigned by
    [_assemble_bitrate_statistics] and do not exist before ([None]). *)
Record BitrateStats : Type := {
  input_file : string;
  stream_type : StreamType;
  aggregation : Aggregation;
  chunk_size : float;
  dry_run : bool;
  duration : float;
  fps : float;
  max_bitrate : float;
  min_bitrate : float;
  moving_avg_bitrate : list float;
  frames : list FrameEntry.t;
  bitrate_stats : option Summary.t;
  rounding_factor : Z;
  _chunks : list float;
  avg_bitrate : option float;
  avg_bitrate_over_chunks : option float;
  max_bitrate_factor : option float;
}.

(** What the methods do to the outside world: a message to the logger, or a
    run of ffprobe with a command line. *)
Inductive event : Type :=
| LogDebug (msg : string)
| LogInfo (msg : string)
| LogWarning (msg : string)
| LogError (msg : string)
| RunCommand (cmd : list string).

(** What running ffprobe on the input file gives: a non-zero return code
    with its standard error, or the packets of the selected stream.
    Reading the same file twice gives the same outcome. *)
Inductive ffprobe : Type :=
| ProbeFailed (stderr : string)
| ProbePackets (info : list PacketInfo).

(** The two numpy operations the source uses, on a [float64]: [np.mean] of a
    list, and the rounding behind [round(x, ndigits)] for a numpy scalar.
    numpy is not part of the repository. *)
Class Numpy : Type := {
  np_mean : list float -> float;
  np_round : float -> Z -> float;
}.

(** An instance to evaluate examples with: the mean by summing from left to
    right, and numpy's rounding taken to be Python's. *)
Definition sequential_numpy : Numpy :=
  {| np_mean := fun xs => PrimFloat.div (Py.sum_float xs) (Py.float_of_len (length xs));
     np_round := Py.round |}.

(** ** Methods: state, exceptions and events *)

(** A method takes [self], returns a value or raises, leaves [self] as it
    is at that moment, and emits events. *)
Definition M (A : Type) : Type :=
  BitrateStats -> Py.result A * BitrateStats * list event.

Definition ret {A} (a : A) : M A := fun self => (inr a, self, []).

Definition bind {A B} (m : M A) (f : A -> M B) : M B :=
  fun self =>
    match m self with
    | (inl e, self', ev) => (inl e, self', ev)
    | (inr a, self', ev) =>
        let '(r, self'', ev') := f a self' in (r, self'', ev ++ ev')
    end.

Definition raise {A} (e : Py.exn) : M A := fun self => (inl e, self, []).

Definition lift {A} (r : Py.result A) : M A := fun self => (r, self, []).

Definition emit (ev : list event) : M unit := fun self => (inr tt, self, ev).

Definition get : M BitrateStats := fun self => (inr self, self, []).

Definition modify (f : BitrateStats -> BitrateStats) : M unit :=
  fun self => (inr tt, f self, []).

Notation "x <- m ;; k" := (bind m (fun x => k))
  (at level 90, m at level 80, right associativity).
Notation "m ;;; k" := (bind m (fun _ => k))
  (at level 90, right associativity).

(** Attribute assignments [self.x = v]. *)
Definition set_duration (v : float) (s : BitrateStats) : BitrateStats :=
  Build_BitrateStats (input_file s) (stream_type s) (aggregation s) (chunk_size s)
    (dry_run s) v (fps s) (max_bitrate s) (min_bitrate s) (moving_avg_bitrate s)
    (frames s) (bitrate_stats s) (rounding_factor s) (_chunks s) (avg_bitrate s)
    (avg_bitrate_over_chunks s) (max_bitrate_factor s).

Definition set_fps (v : float) (s : BitrateStats) : BitrateStats :=
  Build_BitrateStats (input_file s) (stream_type s) (aggregation s) (chunk_size s)
    (dry_run s) (duration s) v (max_bitrate s) (min_bitrate s) (moving_avg_bitrate s)
    (frames s) (bitrate_stats s) (rounding_factor s) (_chunks s) (avg_bitrate s)
    (avg_bitrate_over_chunks s) (max_bitrate_factor s).

Definition set_max_bitrate (v : float) (s : BitrateStats) : BitrateStats :=
  Build_BitrateStats (input_file s) (stream_type s) (aggregation s) (chunk_size s)
    (dry_run s) (duration s) (fps s) v (min_bitrate s) (moving_avg_bitrate s)
    (frames s) (bitrate_stats s) (rounding_factor s) (_chunks s) (avg_bitrate s)
    (avg_bitrate_over_chunks s) (max_bitrate_factor s).

Definition set_min_bitrate (v : float) (s : BitrateStats) : BitrateStats :=
  Build_BitrateStats (input_file s) (stream_type s) (aggregation s) (chunk_size s)
    (dry_run s) (duration s) (fps s) (max_bitrate s) v (moving_avg_bitrate s)
    (frames s) (bitrate_stats s) (rounding_factor s) (_chunks s) (avg_bitrate s)
    (avg_bitrate_over_chunks s) (max_bitrate_factor s).

Definition set_frames (v : list FrameEntry.t) (s : BitrateStats) : BitrateStats :=
  Build_BitrateStats (input_file s) (stream_type s) (aggregation s) (chunk_size s)
    (dry_run s) (duration s) (fps s) (max_bitrate s) (min_bitrate s) (moving_avg_bitrate s)
    v (bitrate_stats s) (rounding_factor s) (_chunks s) (avg_bitrate s)
    (avg_bitrate_over_chunks s) (max_bitrate_factor s).

Definition set_bitrate_stats (v : option Summary.t) (s : BitrateStats) : BitrateStats :=
  Build_BitrateStats (input_file s) (stream_type s) (aggregation s) (chunk_size s)
    (dry_run s) (duration s) (fps s) (max_bitrate s) (min_bitrate s) (moving_avg_bitrate s)
    (frames s) v (rounding_factor s) (_chunks s) (avg_bitrate s)
    (avg_bitrate_over_chunks s) (max_bitrate_factor s).

Definition set__chunks (v : list float) (s : BitrateStats) : BitrateStats :=
  Build_BitrateStats (input_file s) (stream_type s) (aggregation s) (chunk_size s)
    (dry_run s) (duration s) (fps s) (max_bitrate s) (min_bitrate s) (moving_avg_bitrate s)
    (frames s) (bitrate_stats s) (rounding_factor s) v (avg_bitrate s)
    (avg_bitrate_over_chunks s) (max_bitrate_factor s).

Definition set_avg_bitrate (v : float) (s : BitrateStats) : BitrateStats :=
  Build_BitrateStats (input_file s) (stream_type s) (aggregation s) (chunk_size s)
    (dry_run s) (duration s) (fps s) (max_bitrate s) (min_bitrate s) (moving_avg_bitrate s)
    (frames s) (bitrate_stats s) (rounding_factor s) (_chunks s) (Some v)
    (avg_bitrate_over_chunks s) (max_bitrate_factor s).

Definition set_avg_bitrate_over_chunks (v : float) (s : BitrateStats) : BitrateStats :=
  Build_BitrateStats (input_file s) (stream_type s) (aggregation s) (chunk_size s)
    (dry_run s) (duration s) (fps s) (max_bitrate s) (min_bitrate s) (moving_avg_bitrate s)
    (frames s) (bitrate_stats s) (rounding_factor s) (_chunks s) (avg_bitrate s)
    (Some v) (max_bitrate_factor s).

Definition set_max_bitrate_factor (v : float) (s : BitrateStats) : BitrateStats :=
  Build_BitrateStats (input_file s) (stream_type s) (aggregation s) (chunk_size s)
    (dry_run s) (duration s) (fps s) (max_bitrate s) (min_bitrate s) (moving_avg_bitrate s)
    (frames s) (bitrate_stats s) (rounding_factor s) (_chunks s) (avg_bitrate s)
    (avg_bitrate_over_chunks s) (Some v).

(** ** [__init__] *)

(** The constructor, on the strings and numbers the caller passes. *)
Definition __init__ (input_file stream_type aggregation : string)
    (chunk_size : float) (dry_run : bool) : Py.result BitrateStats :=
  match (if String.eqb stream_type "audio" then Some audio
         else if String.eqb stream_type "video" then Some video else None) with
  | None => inl (Py.ValueError "Stream type must be audio/video")
  | Some st =>
      match (if String.eqb aggregation "time" then Some time
             else if String.eqb aggregation "gop" then Some gop else None) with
      | None => inl (Py.ValueError "Wrong aggregation type")
      | Some ag =>
          match ag, st with
          | gop, audio =>
              inl (Py.ValueError "GOP aggregation for audio does not make sense")
          | _, _ =>
              if negb (PrimFloat.eqb chunk_size zero) && PrimFloat.ltb chunk_size zero
              then inl (Py.ValueError "Chunk size must be greater than 0")
              else inr {| input_file := input_file;
                          stream_type := st;
                          aggregation := ag;
                          chunk_size := chunk_size;
                          dry_run := dry_run;
                          duration := zero;
                          fps := zero;
                          max_bitrate := zero;
                          min_bitrate := zero;
                          moving_avg_bitrate := [];
                          frames := [];
                          bitrate_stats := None;
                          rounding_factor := 3;
                          _chunks := [];
                          avg_bitrate := None;
                          avg_bitrate_over_chunks := None;
                          max_bitrate_factor := None |}
          end
      end
  end.

(** ** Duration repair: [_calculate_frame_sizes] and [_fix_durations] *)

(** [next((x["duration_time"] for x in info if "duration_time" in x.keys()), "NaN")] *)
Fixpoint default_duration (info : list PacketInfo) : option float :=
  match info with
  | [] => None
  | x :: rest =>
      match duration_time x with
      | Some d => Some d
      | None => default_duration rest
      end
  end.

(** The body of the loop over [info]: the entry appended for [packet_info]
    at index [idx]. *)
Definition frame_entry (default : option float) (idx : Z) (packet_info : PacketInfo)
  : FrameEntry.t :=
  {| FrameEntry.n := idx;
     FrameEntry.frame_type := if String.eqb (flags packet_info) "K_" then I_ else Non_I;
     FrameEntry.pts := pts_time packet_info;
     FrameEntry.size := packet_size packet_info;
     FrameEntry.duration := match duration_time packet_info with
                            | Some d => Some d
                            | None => default
                            end |}.

(** The loop over [info], [idx] counting from its first value. *)
Fixpoint frame_entries (default : option float) (idx : Z) (info : list PacketInfo)
  : list FrameEntry.t :=
  match info with
  | [] => []
  | packet_info :: rest =>
      frame_entry default idx packet_info :: frame_entries default (idx + 1) rest
  end.

Definition warn_nan : event :=
  LogWarning "PTS is NaN, duration/bitrate may be invalid".
Definition warn_non_monotonic : event :=
  LogWarning "Non-monotonically increasing PTS, duration/bitrate may be invalid".

(** The state of the loop of [_fix_durations]: the list [ret], which the
    loop updates in place, [last_duration], and the warnings logged so far. *)
Record fix_state : Type := {
  fx_ret : list FrameEntry.t;
  fx_last_duration : option float;
  fx_log : list event;
}.

(** One turn of [for i in range(len(ret) - 1)]. Both [ret[i]] and
    [ret[i + 1]] exist for these [i]; the last case is not reached. *)
Definition fix_step (st : fix_state) (i : nat) : fix_state :=
  match fx_ret st !! i, fx_ret st !! S i with
  | Some curr, Some next =>
      match FrameEntry.pts curr, FrameEntry.pts next with
      | Some curr_pts, Some next_pts =>
          let last_duration := PrimFloat.sub next_pts curr_pts in
          {| fx_ret := <[i := FrameEntry.set_duration curr (Some last_duration)]> (fx_ret st);
             fx_last_duration := Some last_duration;
             fx_log := if PrimFloat.ltb next_pts curr_pts
                       then fx_log st ++ [warn_non_monotonic]
                       else fx_log st |}
      | _, _ =>
          {| fx_ret := fx_ret st;
             fx_last_duration := fx_last_duration st;
             fx_log := fx_log st ++ [warn_nan] |}
      end
  | _, _ => st
  end.

Definition fix_loop (ret : list FrameEntry.t) : fix_state :=
  fold_left fix_step (seq 0 (length ret - 1))
    {| fx_ret := ret; fx_last_duration := None; fx_log := [] |}.

(** [ret[-1]["duration"] = last_duration] *)
Definition set_last_duration (ret : list FrameEntry.t) (d : float) : list FrameEntry.t :=
  match ret !! (length ret - 1)%nat with
  | Some last => <[(length ret - 1)%nat := FrameEntry.set_duration last (Some d)]> ret
  | None => ret
  end.

(** [_fix_durations]: the repaired list and the warnings logged. *)
Definition _fix_durations (ret : list FrameEntry.t) : list FrameEntry.t * list event :=
  let st := fix_loop ret in
  match fx_last_duration st with
  | Some last_duration => (set_last_duration (fx_ret st) last_duration, fx_log st)
  | None => (fx_ret st, fx_log st)
  end.

(** The list [_calculate_frame_sizes] builds from ffprobe's packets and
    stores in [self.frames], with the warnings of the repair. *)
Definition frames_of_packets (info : list PacketInfo) : list FrameEntry.t * list event :=
  let default := default_duration info in
  let ret := frame_entries default 1 info in
  match default with
  | None => _fix_durations ret
  | Some _ => (ret, [])
  end.

(** The ffprobe command line. *)
Definition ffprobe_cmd (self : BitrateStats) : list string :=
  ["ffprobe"; "-loglevel"; "error"; "-select_streams";
   match stream_type self with audio => "a:0" | video => "v:0" end;
   "-show_packets"; "-show_entries";
   "packet=pts_time,dts_time,duration_time,size,flags"; "-of"; "json";
   input_file self]%string.

(** [run_command(cmd, dry_run)]: the standard output, parsed, or [None]
    in a dry run; a failing command ends the program with [sys.exit(1)]. *)
Definition run_command (probe : ffprobe) (cmd : list string) (dry_run : bool)
  : M (option (list PacketInfo)) :=
  if dry_run then
    emit [LogInfo (String.append "[cmd] " (String.concat " " cmd))] ;;;
    ret None
  else
    emit [RunCommand cmd] ;;;
    match probe with
    | ProbePackets info => ret (Some info)
    | ProbeFailed stderr =>
        emit [LogError (String.append "error running command: " (String.concat " " cmd));
              LogError stderr] ;;;
        raise (Py.SystemExit 1)
    end.

Definition _calculate_frame_sizes (probe : ffprobe) : M (list FrameEntry.t) :=
  self <- get ;;
  emit [LogDebug (String.append "Calculating frame size from " (input_file self))] ;;;
  stdout <- run_command probe (ffprobe_cmd self) (dry_run self) ;;
  match stdout with
  | None =>
      emit [LogError "Aborting prematurely, dry-run specified or stdout was empty"] ;;;
      raise (Py.SystemExit 0)
  | Some info =>
      let '(ret_, warnings) := frames_of_packets info in
      emit warnings ;;;
      modify (set_frames ret_) ;;;
      ret ret_
  end.

(** ** Duration and frame rate *)

(** The items [f["duration"] for f in self.frames if f["duration"] != "NaN"]. *)
Definition known_durations (frames : list FrameEntry.t) : list float :=
  omap FrameEntry.duration frames.

(** With no known duration Python's sum is the integer [0] and so is its
    rounding; a division by it raises as a division by the float [0] does,
    and nothing else reads it before. *)
Definition _calculate_duration : M float :=
  self <- get ;;
  let d := Py.round (Py.sum_float (known_durations (frames self))) 2 in
  modify (set_duration d) ;;;
  ret d.

Definition _calculate_fps : M float :=
  self <- get ;;
  v <- lift (Py.float_truediv (Py.float_of_len (length (frames self))) (duration self)) ;;
  modify (set_fps v) ;;;
  ret v.

(** ** The chunker *)

(** [if curr_list: aggregation_chunks.append(curr_list)] *)
Definition append_if_nonempty (aggregation_chunks : list (list FrameEntry.t))
    (curr_list : list FrameEntry.t) : list (list FrameEntry.t) :=
  match curr_list with
  | [] => aggregation_chunks
  | _ :: _ => aggregation_chunks ++ [curr_list]
  end.

(** One turn of the loop over [self.frames] in GOP mode, on
    [(aggregation_chunks, curr_list)]. *)
Definition gop_step (st : list (list FrameEntry.t) * list FrameEntry.t)
    (frame : FrameEntry.t) : list (list FrameEntry.t) * list FrameEntry.t :=
  let '(aggregation_chunks, curr_list) := st in
  match FrameEntry.frame_type frame with
  | Non_I => (aggregation_chunks, curr_list ++ [frame])
  | I_ => (append_if_nonempty aggregation_chunks curr_list, [frame])
  end.

(** One turn of the loop in time mode, on
    [(aggregation_chunks, curr_list, agg_time)]. *)
Definition time_step (chunk_size : float)
    (st : list (list FrameEntry.t) * list FrameEntry.t * float)
    (frame : FrameEntry.t) : list (list FrameEntry.t) * list FrameEntry.t * float :=
  let '(aggregation_chunks, curr_list, agg_time) := st in
  if PrimFloat.ltb agg_time chunk_size then
    (aggregation_chunks, curr_list ++ [frame],
     PrimFloat.add agg_time (Py.float_of_field (FrameEntry.duration frame)))
  else
    (append_if_nonempty aggregation_chunks curr_list, [frame],
     Py.float_of_field (FrameEntry.duration frame)).

(** The list [aggregation_chunks] of [_collect_chunks] once the last open
    chunk is flushed. *)
Definition aggregation_chunks (aggregation : Aggregation) (chunk_size : float)
    (frames : list FrameEntry.t) : list (list FrameEntry.t) :=
  match aggregation with
  | gop =>
      let '(chunks, curr_list) := fold_left gop_step frames ([], []) in
      chunks ++ [curr_list]
  | time =>
      let '(chunks, curr_list, _) :=
        fold_left (time_step chunk_size) frames ([], [], zero) in
      chunks ++ [curr_list]
  end.

(** ** The bitrate of a chunk *)

Definition sizes (frame_list : list FrameEntry.t) : list Z :=
  map FrameEntry.size frame_list.

Definition _bitrate_for_frame_list (frame_list : list FrameEntry.t) : Py.result float :=
  if (length frame_list <? 2)%nat then inr nan
  else
    match head frame_list, last frame_list with
    | Some first, Some last_ =>
        let duration :=
          PrimFloat.sub (Py.float_of_field (FrameEntry.pts last_))
                        (Py.float_of_field (FrameEntry.pts first)) in
        let size := Py.sum_int (sizes frame_list) in
        match Py.int_truediv (size * 8) 1000 with
        | inl e => inl e
        | inr kbit => Py.float_truediv kbit duration
        end
    | _, _ => inr nan
    end.

(** A list comprehension [[f(x) for x in xs]] whose [f] can raise: the
    items are computed in order, and the first exception ends it. *)
Fixpoint comprehension {A B} (f : A -> Py.result B) (xs : list A) : Py.result (list B) :=
  match xs with
  | [] => inr []
  | x :: rest =>
      match f x with
      | inl e => inl e
      | inr y =>
          match comprehension f rest with
          | inl e => inl e
          | inr ys => inr (y :: ys)
          end
      end
  end.

Definition _collect_chunks : M (list float) :=
  self <- get ;;
  if negb (length (_chunks self) =? 0)%nat then ret (_chunks self)
  else
    emit [LogDebug "Collecting chunks for bitrate calculation"] ;;;
    chunks <- lift (comprehension _bitrate_for_frame_list
                      (aggregation_chunks (aggregation self) (chunk_size self)
                         (frames self))) ;;
    modify (set__chunks chunks) ;;;
    ret chunks.

(** ** The summary *)

Definition _calculate_max_min_bitrate : M (float * float) :=
  chunks <- _collect_chunks ;;
  hi <- lift (Py.max chunks) ;;
  modify (set_max_bitrate hi) ;;;
  chunks' <- _collect_chunks ;;
  lo <- lift (Py.min chunks') ;;
  modify (set_min_bitrate lo) ;;;
  ret (hi, lo).

Section WithNumpy.
Context {numpy : Numpy}.

Definition _assemble_bitrate_statistics : M Summary.t :=
  self <- get ;;
  kbit <- lift (Py.int_truediv (Py.sum_int (sizes (frames self)) * 8) 1000) ;;
  avg <- lift (Py.float_truediv kbit (duration self)) ;;
  modify (set_avg_bitrate avg) ;;;
  chunks <- _collect_chunks ;;
  let over_chunks := np_mean chunks in
  modify (set_avg_bitrate_over_chunks over_chunks) ;;;
  self <- get ;;
  factor <- lift (Py.float_truediv (max_bitrate self) avg) ;;
  modify (set_max_bitrate_factor factor) ;;;
  self <- get ;;
  per_chunk <- _collect_chunks ;;
  let ret_ :=
    {| Summary.input_file := input_file self;
       Summary.stream_type := stream_type self;
       Summary.avg_fps := Py.round (fps self) (rounding_factor self);
       Summary.num_frames := length (frames self);
       Summary.avg_bitrate := Py.round avg (rounding_factor self);
       Summary.avg_bitrate_over_chunks := np_round over_chunks (rounding_factor self);
       Summary.max_bitrate := Py.round (max_bitrate self) (rounding_factor self);
       Summary.min_bitrate := Py.round (min_bitrate self) (rounding_factor self);
       Summary.max_bitrate_factor := Py.round factor (rounding_factor self);
       Summary.bitrate_per_chunk :=
         map (fun b => Py.round b (rounding_factor self)) per_chunk;
       Summary.aggregation := aggregation self;
       Summary.chunk_size := chunk_size self;
       Summary.duration := Py.round (duration self) (rounding_factor self) |} in
  modify (set_bitrate_stats (Some ret_)) ;;;
  ret ret_.

Definition calculate_statistics (probe : ffprobe) : M Summary.t :=
  _calculate_frame_sizes probe ;;;
  _calculate_duration ;;;
  _calculate_fps ;;;
  _calculate_max_min_bitrate ;;;
  _assemble_bitrate_statistics ;;;
  self <- get ;;
  match bitrate_stats self with
  | None => raise (Py.RuntimeError "bitrate_stats is None, should not happen")
  | Some stats => ret stats
  end.

End WithNumpy.

(** ** Output: [get_csv], [get_json] and [print_statistics] *)

(** The two renderings the source delegates to libraries outside the
    repository: [json.dumps(stats, indent=4)], and the text pandas makes of
    the data frame that [get_csv] builds from the summary. *)
Class Rendering : Type := {
  json_dumps : Summary.t -> string;
  to_csv : Summary.t -> string;
}.

Section WithRendering.
Context {rendering : Rendering}.

Definition get_csv (self : BitrateStats) : Py.result string :=
  match bitrate_stats self with
  | None => inl (Py.RuntimeError "No bitrate stats available")
  | Some stats => inr (to_csv stats)
  end.

Definition get_json (self : BitrateStats) : Py.result string :=
  match bitrate_stats self with
  | None => inl (Py.RuntimeError "No bitrate stats available")
  | Some stats => inr (json_dumps stats)
  end.

(** [print_statistics]: the text it prints, or the exception. *)
Definition print_statistics (output_format : string) (self : BitrateStats)
  : Py.result string :=
  if String.eqb output_format "csv" then get_csv self
  else if String.eqb output_format "json" then get_json self
  else inl (Py.ValueError "Invalid output format").

End WithRendering.

(** * The vocabulary of the properties *)

(** ** Chunks *)

(** A chunk that starts with a key frame. *)
Definition starts_with_key (chunk : list FrameEntry.t) : Prop :=
  exists frame rest, chunk = frame :: rest /\ FrameEntry.frame_type frame = I_.

(** While the GOP loop runs, every closed chunk but possibly the first
    starts with a key frame, and so does the open chunk once a chunk has
    been closed. *)
Definition gop_invariant (st : list (list FrameEntry.t) * list FrameEntry.t) : Prop :=
  Forall starts_with_key (tail (fst st)) /\
  (fst st <> [] -> starts_with_key (snd st)).

(** Two zeros, of any sign. *)
Definition both_zero (x y : float) : Prop :=
  exists s s', Prim2SF x = S754_zero s /\ Prim2SF y = S754_zero s'.

(** The same number: the same float, or two zeros. The sum of a chunk's
    durations starts from [0] and the running sum of the loop from the first
    duration; the two agree up to this relation. *)
Definition same_number (x y : float) : Prop := x = y \/ both_zero x y.

(** The accumulated duration of a chunk: the sum of its packets'
    durations, added in order from [0] as [agg_time +=] adds them. *)
Definition chunk_duration (chunk : list FrameEntry.t) : float :=
  fold_left PrimFloat.add
    (map (fun frame => Py.float_of_field (FrameEntry.duration frame)) chunk) zero.

(** A chunk whose accumulated duration is not below the chunk size. *)
Definition not_below (chunk_size : float) (chunk : list FrameEntry.t) : Prop :=
  PrimFloat.ltb (chunk_duration chunk) chunk_size = false.

(** While the time loop runs, every closed chunk has reached the chunk size
    and [agg_time] is the accumulated duration of the open chunk. *)
Definition time_invariant (chunk_size : float)
    (st : list (list FrameEntry.t) * list FrameEntry.t * float) : Prop :=
  Forall (not_below chunk_size) (fst (fst st)) /\
  same_number (snd st) (chunk_duration (snd (fst st))).

(** ** The bitrate series and its cache *)

(** The exceptions of arithmetic. *)
Definition arithmetic (e : Py.exn) : Prop :=
  e = Py.ZeroDivisionError \/ e = Py.OverflowError.

(** The bitrate series of an instance: what [_collect_chunks] computes when
    nothing is cached. *)
Definition bitrate_series (self : BitrateStats) : Py.result (list float) :=
  comprehension _bitrate_for_frame_list
    (aggregation_chunks (aggregation self) (chunk_size self) (frames self)).

(** What [_collect_chunks] logs when it computes. *)
Definition debug_collecting : event :=
  LogDebug "Collecting chunks for bitrate calculation".

(** The series [_collect_chunks] returns: the cached one if there is one,
    the computed one otherwise. *)
Definition series_of (self : BitrateStats) : Py.result (list float) :=
  match _chunks self with
  | [] => bitrate_series self
  | _ :: _ => inr (_chunks self)
  end.

(** [_collect_chunks] logs only when it computes. *)
Definition collect_events (self : BitrateStats) : list event :=
  match _chunks self with
  | [] => [debug_collecting]
  | _ :: _ => []
  end.

(** What [_calculate_frame_sizes] emits when ffprobe gives packets. *)
Definition probe_events (self : BitrateStats) (info : list PacketInfo) : list event :=
  LogDebug (String.append "Calculating frame size from " (input_file self))
    :: RunCommand (ffprobe_cmd self) :: (frames_of_packets info).2.

(** ** Duration repair, pair by pair *)

(** The delta [ret[j + 1]["pts"] - ret[j]["pts"]], when both records exist
    and both times are defined. *)
Definition delta_at (ret : list FrameEntry.t) (j : nat) : option float :=
  match ret !! j, ret !! S j with
  | Some curr, Some next =>
      match FrameEntry.pts curr, FrameEntry.pts next with
      | Some curr_pts, Some next_pts => Some (PrimFloat.sub next_pts curr_pts)
      | _, _ => None
      end
  | _, _ => None
  end.

(** The most recent delta among the pairs [0 .. k-1]. *)
Fixpoint last_delta (ret : list FrameEntry.t) (k : nat) : option float :=
  match k with
  | O => None
  | S k' =>
      match delta_at ret k' with
      | Some d => Some d
      | None => last_delta ret k'
      end
  end.

(** Record [j] once the pairs [0 .. k-1] have been visited. *)
Definition repaired (ret : list FrameEntry.t) (k j : nat) (frame : FrameEntry.t)
  : FrameEntry.t :=
  if (j <? k)%nat then
    match delta_at ret j with
    | Some d => FrameEntry.set_duration frame (Some d)
    | None => frame
    end
  else frame.

(** The loop of [_fix_durations] before its first turn. *)
Definition fix_init (ret : list FrameEntry.t) : fix_state :=
  {| fx_ret := ret; fx_last_duration := None; fx_log := [] |}.

(** Record [i] of [frames] has received the delta of its pair. *)
Definition receives_delta (frames : list FrameEntry.t) (i : nat) : Prop :=
  exists curr next curr_pts next_pts,
    frames !! i = Some curr /\ frames !! S i = Some next /\
    FrameEntry.pts curr = Some curr_pts /\ FrameEntry.pts next = Some next_pts /\
    FrameEntry.duration curr = Some (PrimFloat.sub next_pts curr_pts).

(** The last record of [frames] has the duration of the one before it. *)
Definition carries_forward (frames : list FrameEntry.t) : Prop :=
  exists last_ before,
    frames !! (length frames - 1)%nat = Some last_ /\
    frames !! (length frames - 2)%nat = Some before /\
    FrameEntry.duration last_ = FrameEntry.duration before.

(** ** Inputs of the examples *)

(** A packet of ffprobe. *)
Definition packet (f : string) (p d : option float) (s : Z) : PacketInfo :=
  {| flags := f; pts_time := p; duration_time := d; packet_size := s |}.

(** Three packets with times 0, 1 and 4 and no explicit duration. *)
Definition timestamps_only : list PacketInfo :=
  [packet "K_" (Some 0%float) None 1000;
   packet "__" (Some 1%float) None 2000;
   packet "__" (Some 4%float) None 1000].

(** Three packets with times 0, 2 and 5, the first with the explicit
    duration 0.5, the others with none. *)
Definition one_explicit_duration : list PacketInfo :=
  [packet "K_" (Some 0%float) (Some 0.5%float) 1000;
   packet "__" (Some 2%float) None 2000;
   packet "__" (Some 5%float) None 1000].

(** [BitrateStats("in.mp4", "video", aggregation, 1)] *)
Definition instance (aggregation_ : Aggregation) : BitrateStats :=
  {| input_file := "in.mp4"; stream_type := video; aggregation := aggregation_;
     chunk_size := 1; dry_run := false; duration := zero; fps := zero;
     max_bitrate := zero; min_bitrate := zero; moving_avg_bitrate := [];
     frames := []; bitrate_stats := None; rounding_factor := 3; _chunks := [];
     avg_bitrate := None; avg_bitrate_over_chunks := None;
     max_bitrate_factor := None |}.

(** One packet with neither a presentation time nor a duration. *)
Definition untimed_packet : list PacketInfo := [packet "K_" None None 1000].

(** One packet with the explicit duration 1.00390625 (1 + 1/256). *)
Definition long_packet : list PacketInfo :=
  [packet "K_" (Some 0%float) (Some 1.00390625%float) 1000].

(** Five packets in two groups of pictures. *)
Definition two_gops : list PacketInfo :=
  [packet "K_" (Some 0%float) (Some 1%float) 1000;
   packet "__" (Some 1%float) (Some 1%float) 2000;
   packet "__" (Some 2%float) (Some 1%float) 1000;
   packet "K_" (Some 3%float) (Some 1%float) 1000;
   packet "__" (Some 4%float) (Some 1%float) 2000].

(** Three packets of one second each. *)
Definition three_seconds : list PacketInfo :=
  [packet "K_" (Some 0%float) (Some 1%float) 1000;
   packet "__" (Some 1%float) (Some 1%float) 2000;
   packet "__" (Some 2%float) (Some 1%float) 1000].

(** Two packets with the same presentation time. *)
Definition same_time_chunk : list FrameEntry.t :=
  [{| FrameEntry.n := 1; FrameEntry.frame_type := I_; FrameEntry.pts := Some 1%float;
      FrameEntry.size := 1000; FrameEntry.duration := Some 1%float |};
   {| FrameEntry.n := 2; FrameEntry.frame_type := Non_I; FrameEntry.pts := Some 1%float;
      FrameEntry.size := 1000; FrameEntry.duration := Some 1%float |}].

(** ** The pipeline in direct style *)

Section DirectStyle.
Context {numpy : Numpy}.

(** The record [ret] of [_assemble_bitrate_statistics], from the instance
    and the three values the method has just computed. *)
Definition assembled (self : BitrateStats) (avg over_chunks factor : float) : Summary.t :=
  {| Summary.input_file := input_file self;
     Summary.stream_type := stream_type self;
     Summary.avg_fps := Py.round (fps self) (rounding_factor self);
     Summary.num_frames := length (frames self);
     Summary.avg_bitrate := Py.round avg (rounding_factor self);
     Summary.avg_bitrate_over_chunks := np_round over_chunks (rounding_factor self);
     Summary.max_bitrate := Py.round (max_bitrate self) (rounding_factor self);
     Summary.min_bitrate := Py.round (min_bitrate self) (rounding_factor self);
     Summary.max_bitrate_factor := Py.round factor (rounding_factor self);
     Summary.bitrate_per_chunk :=
       map (fun b => Py.round b (rounding_factor self)) (_chunks self);
     Summary.aggregation := aggregation self;
     Summary.chunk_size := chunk_size self;
     Summary.duration := Py.round (duration self) (rounding_factor self) |}.

(** [calculate_statistics] after its first step. *)
Definition after_probe : M Summary.t :=
  _calculate_duration ;;;
  _calculate_fps ;;;
  _calculate_max_min_bitrate ;;;
  _assemble_bitrate_statistics ;;;
  self <- get ;;
  match bitrate_stats self with
  | None => raise (Py.RuntimeError "bitrate_stats is None, should not happen")
  | Some stats => ret stats
  end.

(** [after_probe] in direct style: the value or exception, the instance
    and the events, by the outcome of each step. *)
Definition outcome (self : BitrateStats) : Py.result Summary.t * BitrateStats * list event :=
  let d := Py.round (Py.sum_float (known_durations (frames self))) 2 in
  match Py.float_truediv (Py.float_of_len (length (frames self))) d with
  | inl e => (inl e, set_duration d self, [])
  | inr v =>
      let self2 := set_fps v (set_duration d self) in
      match series_of self with
      | inl e => (inl e, self2, collect_events self)
      | inr chunks =>
          match Py.max chunks, Py.min chunks with
          | inr hi, inr lo =>
              let self3 :=
                set_min_bitrate lo (set_max_bitrate hi (set__chunks chunks self2)) in
              match Py.int_truediv (Py.sum_int (sizes (frames self)) * 8) 1000 with
              | inl e => (inl e, self3, collect_events self)
              | inr kbit =>
                  match Py.float_truediv kbit d with
                  | inl e => (inl e, self3, collect_events self)
                  | inr avg =>
                      let over_chunks := np_mean chunks in
                      let self4 :=
                        set_avg_bitrate_over_chunks over_chunks (set_avg_bitrate avg self3) in
                      match Py.float_truediv hi avg with
                      | inl e => (inl e, self4, collect_events self)
                      | inr factor =>
                          let stats := assembled self3 avg over_chunks factor in
                          (inr stats,
                           set_bitrate_stats (Some stats)
                             (set_max_bitrate_factor factor self4),
                           collect_events self)
                      end
                  end
              end
          | inl e, _ => (inl e, set__chunks chunks self2, collect_events self)
          | inr hi, inl e =>
              (inl e, set_max_bitrate hi (set__chunks chunks self2), collect_events self)
          end
      end
  end.

End DirectStyle.

(** ** Further vocabulary *)

(** The warning the loop of [_fix_durations] logs at pair [i], if any. *)
Definition pair_warning (ret : list FrameEntry.t) (i : nat) : list event :=
  match ret !! i, ret !! S i with
  | Some curr, Some next =>
      match FrameEntry.pts curr, FrameEntry.pts next with
      | Some curr_pts, Some next_pts =>
          if PrimFloat.ltb next_pts curr_pts then [warn_non_monotonic] else []
      | _, _ => [warn_nan]
      end
  | _, _ => []
  end.

(** A chunk in which no packet after the first is a key frame. *)
Definition key_only_first (chunk : list FrameEntry.t) : Prop :=
  Forall (fun frame => FrameEntry.frame_type frame = Non_I) (tail chunk).

(** A chunk that is below the chunk size without its last packet. *)
Definition minimal (chunk_size : float) (chunk : list FrameEntry.t) : Prop :=
  forall init frame,
    chunk = init ++ [frame] -> PrimFloat.ltb (chunk_duration init) chunk_size = true.

(** While the time loop runs, every chunk, closed or open, is below the
    chunk size without its last packet. *)
Definition time_minimal_invariant (chunk_size : float)
    (st : list (list FrameEntry.t) * list FrameEntry.t * float) : Prop :=
  Forall (minimal chunk_size) (fst (fst st)) /\
  minimal chunk_size (snd (fst st)) /\
  same_number (snd st) (chunk_duration (snd (fst st))).


(** What a dry run logs. *)
Definition dry_run_events (self : BitrateStats) : list event :=
  [LogDebug (String.append "Calculating frame size from " (input_file self));
   LogInfo (String.append "[cmd] " (String.concat " " (ffprobe_cmd self)));
   LogError "Aborting prematurely, dry-run specified or stdout was empty"].

(** What a failing run of ffprobe logs. *)
Definition failed_probe_events (self : BitrateStats) (stderr : string) : list event :=
  [LogDebug (String.append "Calculating frame size from " (input_file self));
   RunCommand (ffprobe_cmd self);
   LogError (String.append "error running command: "
               (String.concat " " (ffprobe_cmd self)));
   LogError stderr].

(** One packet with the explicit duration 0.00390625 (1/256). *)
Definition short_packet : list PacketInfo :=
  [packet "K_" (Some 0%float) (Some 0.00390625%float) 1000].

(** Four packets without explicit durations: the second has no time and the
    last goes back in time. *)
Definition gap_and_step_back : list PacketInfo :=
  [packet "K_" (Some 0%float) None 1000;
   packet "__" None None 2000;
   packet "__" (Some 4%float) None 1000;
   packet "__" (Some 3%float) None 1000].

(** [BitrateStats("in.mp4", "video", "time", 2)] *)
Definition instance_two_seconds : BitrateStats :=
  {| input_file := "in.mp4"; stream_type := video; aggregation := time;
     chunk_size := 2; dry_run := false; duration := zero; fps := zero;
     max_bitrate := zero; min_bitrate := zero; moving_avg_bitrate := [];
     frames := []; bitrate_stats := None; rounding_factor := 3; _chunks := [];
     avg_bitrate := None; avg_bitrate_over_chunks := None;
     max_bitrate_factor := None |}.

(** A chunk of two packets, the first without a presentation time. *)
Definition untimed_first_chunk : list FrameEntry.t :=
  [{| FrameEntry.n := 1; FrameEntry.frame_type := I_; FrameEntry.pts := None;
      FrameEntry.size := 1000; FrameEntry.duration := Some 1%float |};
   {| FrameEntry.n := 2; FrameEntry.frame_type := Non_I; FrameEntry.pts := Some 1%float;
      FrameEntry.size := 1000; FrameEntry.duration := Some 1%float |}].

(** Renderings to evaluate examples with. *)
Definition constant_rendering : Rendering :=
  {| json_dumps := fun _ => "json"%string; to_csv := fun _ => "csv"%string |}.

(** * Properties *)

(** ** The chunker *)

Lemma concat_append_if_nonempty (chunks : list (list FrameEntry.t)) (curr : list FrameEntry.t) :
  concat (append_if_nonempty chunks curr) = concat chunks ++ curr.
Proof.
  destruct curr as [|f curr]; simpl.
  - now rewrite app_nil_r.
  - rewrite concat_app. simpl. now rewrite app_nil_r.
Qed.

Lemma gop_loop_concat (frames : list FrameEntry.t) :
  forall chunks curr,
    let '(chunks', curr') := fold_left gop_step frames (chunks, curr) in
    concat chunks' ++ curr' = concat chunks ++ curr ++ frames.
Proof.
  induction frames as [|f frames IH]; intros chunks curr; simpl.
  - now rewrite app_nil_r.
  - destruct (FrameEntry.frame_type f).
    + specialize (IH (append_if_nonempty chunks curr) [f]).
      destruct (fold_left gop_step frames _) as [chunks' curr'].
      rewrite IH, concat_append_if_nonempty. now rewrite <- app_assoc.
    + specialize (IH chunks (curr ++ [f])).
      destruct (fold_left gop_step frames _) as [chunks' curr'].
      rewrite IH. now rewrite <- app_assoc.
Qed.

Lemma time_loop_concat (chunk_size : float) (frames : list FrameEntry.t) :
  forall chunks curr agg_time,
    let '(chunks', curr', _) :=
      fold_left (time_step chunk_size) frames (chunks, curr, agg_time) in
    concat chunks' ++ curr' = concat chunks ++ curr ++ frames.
Proof.
  induction frames as [|f frames IH]; intros chunks curr agg_time; simpl.
  - now rewrite app_nil_r.
  - destruct (PrimFloat.ltb agg_time chunk_size).
    + specialize (IH chunks (curr ++ [f])
                    (PrimFloat.add agg_time (Py.float_of_field (FrameEntry.duration f)))).
      destruct (fold_left (time_step chunk_size) frames _) as [[chunks' curr'] agg'].
      rewrite IH. now rewrite <- app_assoc.
    + specialize (IH (append_if_nonempty chunks curr) [f]
                    (Py.float_of_field (FrameEntry.duration f))).
      destruct (fold_left (time_step chunk_size) frames _) as [[chunks' curr'] agg'].
      rewrite IH, concat_append_if_nonempty. now rewrite <- app_assoc.
Qed.

(** C7: in both aggregation modes the chunks, concatenated in chunk order,
    are the packet sequence itself: no packet is lost, duplicated or
    reordered. *)
Theorem chunks_concat_is_frames (aggregation : Aggregation) (chunk_size : float)
    (frames : list FrameEntry.t) :
  concat (aggregation_chunks aggregation chunk_size frames) = frames.
Proof.
  unfold aggregation_chunks. destruct aggregation.
  - pose proof (time_loop_concat chunk_size frames [] [] zero) as H.
    destruct (fold_left (time_step chunk_size) frames _) as [[chunks curr] agg].
    rewrite concat_app. simpl. rewrite app_nil_r. exact H.
  - pose proof (gop_loop_concat frames [] []) as H.
    destruct (fold_left gop_step frames _) as [chunks curr].
    rewrite concat_app. simpl. rewrite app_nil_r. exact H.
Qed.

Lemma starts_with_key_app (chunk : list FrameEntry.t) (frame : FrameEntry.t) :
  starts_with_key chunk -> starts_with_key (chunk ++ [frame]).
Proof.
  intros (f & rest & -> & Hf). exists f, (rest ++ [frame]). now split.
Qed.

Lemma gop_step_invariant (st : list (list FrameEntry.t) * list FrameEntry.t)
    (frame : FrameEntry.t) :
  gop_invariant st -> gop_invariant (gop_step st frame).
Proof.
  destruct st as [chunks curr]. unfold gop_invariant, gop_step. simpl.
  intros [Hclosed Hopen].
  destruct (FrameEntry.frame_type frame) eqn:Hft; simpl.
  - split.
    + destruct curr as [|f curr]; simpl; [exact Hclosed|].
      destruct chunks as [|c chunks]; simpl; [constructor|].
      apply Forall_app. split; [exact Hclosed|].
      constructor; [|constructor]. now apply Hopen.
    + intros _. exists frame, []. now split.
  - split; [exact Hclosed|].
    intros Hne. now apply starts_with_key_app, Hopen.
Qed.

Lemma gop_loop_invariant (frames : list FrameEntry.t) :
  forall st, gop_invariant st -> gop_invariant (fold_left gop_step frames st).
Proof.
  induction frames as [|f frames IH]; intros st Hst; simpl; [exact Hst|].
  now apply IH, gop_step_invariant.
Qed.

(** C9: in GOP mode every chunk except possibly the first starts with a key
    frame. *)
Theorem gop_chunks_start_with_key (chunk_size : float) (frames : list FrameEntry.t) :
  Forall starts_with_key (tail (aggregation_chunks gop chunk_size frames)).
Proof.
  unfold aggregation_chunks.
  assert (Hinit : gop_invariant ([], [])).
  { split; simpl; [constructor|congruence]. }
  pose proof (gop_loop_invariant frames _ Hinit) as [Hclosed Hopen].
  destruct (fold_left gop_step frames _) as [chunks curr]. simpl in *.
  destruct chunks as [|c chunks]; simpl; [constructor|].
  apply Forall_app. split; [exact Hclosed|].
  constructor; [|constructor]. now apply Hopen.
Qed.

(** *** Time mode: floats that differ at most in the sign of zero *)

Lemma same_number_refl (x : float) : same_number x x.
Proof. now left. Qed.

Lemma same_number_sym (x y : float) : same_number x y -> same_number y x.
Proof.
  intros [->|(s & s' & Hx & Hy)]; [now left|right]. now exists s', s.
Qed.

Lemma add_zero_same_number (d : float) : same_number (PrimFloat.add zero d) d.
Proof.
  pose proof (add_spec zero d) as H.
  change (Prim2SF zero) with (S754_zero false) in H.
  destruct (Prim2SF d) as [s|s| |s m e] eqn:Hd.
  - right. exists false, s. split; [|exact Hd].
    rewrite H. now destruct s.
  - left. apply Prim2SF_inj. now rewrite H, Hd.
  - left. apply Prim2SF_inj. now rewrite H, Hd.
  - left. apply Prim2SF_inj. now rewrite H, Hd.
Qed.

Lemma same_number_add (a b x : float) :
  same_number a b -> same_number (PrimFloat.add a x) (PrimFloat.add b x).
Proof.
  intros [->|(s & s' & Ha & Hb)]; [now left|].
  pose proof (add_spec a x) as Hax. pose proof (add_spec b x) as Hbx.
  rewrite Ha in Hax. rewrite Hb in Hbx.
  destruct (Prim2SF x) as [sx|sx| |sx m e] eqn:Hx.
  - right. unfold both_zero. rewrite Hax, Hbx.
    destruct s, s', sx; simpl; eexists _, _; split; reflexivity.
  - left. apply Prim2SF_inj. now rewrite Hax, Hbx.
  - left. apply Prim2SF_inj. now rewrite Hax, Hbx.
  - left. apply Prim2SF_inj. now rewrite Hax, Hbx.
Qed.

Lemma same_number_ltb (a b c : float) :
  same_number a b -> PrimFloat.ltb a c = PrimFloat.ltb b c.
Proof.
  intros [->|(s & s' & Ha & Hb)]; [reflexivity|].
  rewrite !ltb_spec, Ha, Hb. unfold SFltb, SFcompare.
  now destruct (Prim2SF c).
Qed.

Lemma chunk_duration_snoc (chunk : list FrameEntry.t) (frame : FrameEntry.t) :
  chunk_duration (chunk ++ [frame]) =
  PrimFloat.add (chunk_duration chunk) (Py.float_of_field (FrameEntry.duration frame)).
Proof.
  unfold chunk_duration. now rewrite map_app, fold_left_app.
Qed.

Lemma time_step_invariant (chunk_size : float)
    (st : list (list FrameEntry.t) * list FrameEntry.t * float) (frame : FrameEntry.t) :
  time_invariant chunk_size st -> time_invariant chunk_size (time_step chunk_size st frame).
Proof.
  destruct st as [[chunks curr] agg_time]. unfold time_invariant, time_step. simpl.
  intros [Hclosed Hagg].
  destruct (PrimFloat.ltb agg_time chunk_size) eqn:Hlt; simpl.
  - split; [exact Hclosed|].
    rewrite chunk_duration_snoc. now apply same_number_add.
  - split.
    + destruct curr as [|f curr]; simpl; [exact Hclosed|].
      apply Forall_app. split; [exact Hclosed|].
      constructor; [|constructor].
      unfold not_below. now rewrite <- (same_number_ltb _ _ _ Hagg).
    + apply same_number_sym. apply add_zero_same_number.
Qed.

Lemma time_loop_invariant (chunk_size : float) (frames : list FrameEntry.t) :
  forall st,
    time_invariant chunk_size st ->
    time_invariant chunk_size (fold_left (time_step chunk_size) frames st).
Proof.
  induction frames as [|f frames IH]; intros st Hst; simpl; [exact Hst|].
  now apply IH, time_step_invariant.
Qed.

(** C8: in time mode every chunk except possibly the last has an accumulated
    duration that is not below the chunk size; this holds for every packet
    sequence and every chunk size, so in particular for a positive chunk
    size and durations that are all defined. *)
Theorem time_chunks_reach_chunk_size (chunk_size : float) (frames : list FrameEntry.t) :
  Forall (not_below chunk_size) (removelast (aggregation_chunks time chunk_size frames)).
Proof.
  unfold aggregation_chunks.
  assert (Hinit : time_invariant chunk_size ([], [], zero)).
  { split; simpl; [constructor|apply same_number_refl]. }
  pose proof (time_loop_invariant chunk_size frames _ Hinit) as [Hclosed _].
  destruct (fold_left (time_step chunk_size) frames _) as [[chunks curr] agg].
  simpl in Hclosed. now rewrite removelast_last.
Qed.

(** ** The bitrate series is never empty *)

Ltac unfold_monad :=
  unfold bind, ret, lift, emit, get, modify, raise in *.

Lemma aggregation_chunks_flushes (aggregation : Aggregation) (chunk_size : float)
    (frames : list FrameEntry.t) :
  exists closed open_chunk,
    aggregation_chunks aggregation chunk_size frames = closed ++ [open_chunk].
Proof.
  unfold aggregation_chunks. destruct aggregation.
  - destruct (fold_left (time_step chunk_size) frames _) as [[chunks curr] agg].
    now exists chunks, curr.
  - destruct (fold_left gop_step frames _) as [chunks curr].
    now exists chunks, curr.
Qed.

Lemma aggregation_chunks_length (aggregation : Aggregation) (chunk_size : float)
    (frames : list FrameEntry.t) :
  (1 <= length (aggregation_chunks aggregation chunk_size frames))%nat.
Proof.
  destruct (aggregation_chunks_flushes aggregation chunk_size frames) as (c & o & ->).
  rewrite length_app. simpl. lia.
Qed.

Lemma comprehension_length {A B} (f : A -> Py.result B) (xs : list A) :
  forall ys, comprehension f xs = inr ys -> length ys = length xs.
Proof.
  induction xs as [|x xs IH]; simpl; intros ys H.
  - now inversion H.
  - destruct (f x) as [e|y]; [discriminate|].
    destruct (comprehension f xs) as [e|ys']; [discriminate|].
    inversion H; subst. simpl. f_equal. now apply IH.
Qed.

Lemma int_truediv_1000_raises (a : Z) (e : Py.exn) :
  Py.int_truediv a 1000 = inl e -> e = Py.OverflowError.
Proof.
  unfold Py.int_truediv. simpl (1000 =? 0).
  destruct (SFdiv prec emax (Py.int_SF a) (Py.int_SF 1000)); congruence.
Qed.

Lemma float_truediv_raises (x y : float) (e : Py.exn) :
  Py.float_truediv x y = inl e -> e = Py.ZeroDivisionError.
Proof.
  unfold Py.float_truediv. destruct (PrimFloat.eqb y zero); congruence.
Qed.

Lemma bitrate_raises (frame_list : list FrameEntry.t) (e : Py.exn) :
  _bitrate_for_frame_list frame_list = inl e -> arithmetic e.
Proof.
  unfold _bitrate_for_frame_list.
  destruct (length frame_list <? 2)%nat; [discriminate|].
  destruct (head frame_list); [|discriminate].
  destruct (last frame_list); [|discriminate].
  destruct (Py.int_truediv _ 1000) as [e'|kbit] eqn:Hk.
  - intros H. inversion H; subst. right. eapply int_truediv_1000_raises, Hk.
  - intros H. left. eapply float_truediv_raises, H.
Qed.

Lemma comprehension_raises {A B} (P : Py.exn -> Prop) (f : A -> Py.result B) :
  (forall x e, f x = inl e -> P e) ->
  forall xs e, comprehension f xs = inl e -> P e.
Proof.
  intros Hf xs. induction xs as [|x xs IH]; simpl; intros e H; [discriminate|].
  destruct (f x) as [e'|y] eqn:Hx.
  - inversion H; subst. eapply Hf, Hx.
  - destruct (comprehension f xs) as [e'|ys]; [|discriminate].
    inversion H; subst. now apply IH.
Qed.

Lemma collect_chunks_cached (self : BitrateStats) :
  _chunks self <> [] -> _collect_chunks self = (inr (_chunks self), self, []).
Proof.
  intros H. unfold _collect_chunks. unfold_monad.
  destruct (_chunks self); [congruence|reflexivity].
Qed.

Lemma collect_chunks_fresh (self : BitrateStats) :
  _chunks self = [] ->
  _collect_chunks self =
  match bitrate_series self with
  | inl e => (inl e, self, [debug_collecting])
  | inr chunks => (inr chunks, set__chunks chunks self, [debug_collecting])
  end.
Proof.
  intros H. unfold _collect_chunks, bitrate_series. unfold_monad.
  rewrite H. simpl. now destruct (comprehension _ _).
Qed.

Lemma bitrate_series_length (self : BitrateStats) (chunks : list float) :
  bitrate_series self = inr chunks -> (1 <= length chunks)%nat.
Proof.
  intros H. apply comprehension_length in H. rewrite H.
  apply aggregation_chunks_length.
Qed.

Lemma bitrate_series_raises (self : BitrateStats) (e : Py.exn) :
  bitrate_series self = inl e -> arithmetic e.
Proof. apply comprehension_raises. exact bitrate_raises. Qed.

Lemma collect_chunks_cases (self : BitrateStats) :
  (exists e ev, _collect_chunks self = (inl e, self, ev) /\ arithmetic e /\ _chunks self = []) \/
  (exists chunks self' ev,
      _collect_chunks self = (inr chunks, self', ev) /\
      (1 <= length chunks)%nat /\ _chunks self' = chunks /\
      (self' = self \/ self' = set__chunks chunks self)).
Proof.
  destruct (_chunks self) as [|c cs] eqn:Hc.
  - rewrite (collect_chunks_fresh self Hc).
    destruct (bitrate_series self) as [e|chunks] eqn:Hs.
    + left. exists e, [debug_collecting]. split; [reflexivity|].
      split; [now apply (bitrate_series_raises self)|reflexivity].
    + right. exists chunks, (set__chunks chunks self), [debug_collecting].
      split; [reflexivity|]. split; [now apply (bitrate_series_length self)|].
      split; [reflexivity|now right].
  - right. exists (_chunks self), self, [].
    split; [apply collect_chunks_cached; rewrite Hc; discriminate|].
    split; [rewrite Hc; simpl; lia|]. split; [reflexivity|now left].
Qed.

Lemma max_of_nonempty (xs : list float) :
  (1 <= length xs)%nat -> exists hi, Py.max xs = inr hi.
Proof. destruct xs; simpl; [lia|eauto]. Qed.

Lemma min_of_nonempty (xs : list float) :
  (1 <= length xs)%nat -> exists lo, Py.min xs = inr lo.
Proof. destruct xs; simpl; [lia|eauto]. Qed.

(** [_calculate_max_min_bitrate] either raises what the bitrate of a chunk
    raised, or finds both extrema and leaves the series cached. *)
Lemma max_min_cases (self : BitrateStats) :
  (exists e ev, _calculate_max_min_bitrate self = (inl e, self, ev) /\ arithmetic e) \/
  (exists hi lo self' ev,
      _calculate_max_min_bitrate self = (inr (hi, lo), self', ev) /\
      (1 <= length (_chunks self'))%nat /\
      Py.max (_chunks self') = inr hi /\ Py.min (_chunks self') = inr lo).
Proof.
  unfold _calculate_max_min_bitrate.
  destruct (collect_chunks_cases self)
    as [(e & ev & H & He & _)|(chunks & self1 & ev & H & Hlen & Hc & _)].
  - left. exists e, ev. unfold bind at 1. rewrite H. now split.
  - right. destruct (max_of_nonempty chunks Hlen) as [hi Hhi].
    destruct (min_of_nonempty chunks Hlen) as [lo Hlo].
    exists hi, lo, (set_min_bitrate lo (set_max_bitrate hi self1)), (ev ++ []).
    unfold bind at 1. rewrite H.
    assert (Hcached : _chunks (set_max_bitrate hi self1) <> []).
    { simpl. rewrite Hc. destruct chunks; simpl in *; [lia|discriminate]. }
    unfold_monad. rewrite Hhi. simpl.
    rewrite (collect_chunks_cached _ Hcached). simpl.
    subst chunks. rewrite Hlo. simpl. auto.
Qed.

(** C10: for every instance, whatever its packet sequence and aggregation
    mode, the chunker flushes at least one chunk, so the bitrate series has
    at least one element whenever it is produced; taking its extrema never
    raises for lack of elements (the only exceptions are those the
    arithmetic of a chunk's bitrate raises); and the empty packet sequence
    gives the one-element series [[nan]]. *)
Theorem bitrate_series_never_empty (self : BitrateStats) :
  (1 <= length (aggregation_chunks (aggregation self) (chunk_size self) (frames self)))%nat /\
  match _collect_chunks self with
  | (inr chunks, _, _) => (1 <= length chunks)%nat
  | (inl e, _, _) => arithmetic e
  end /\
  match _calculate_max_min_bitrate self with
  | (inr (hi, lo), self', _) =>
      (1 <= length (_chunks self'))%nat /\
      Py.max (_chunks self') = inr hi /\ Py.min (_chunks self') = inr lo
  | (inl e, _, _) => arithmetic e
  end /\
  (frames self = [] -> bitrate_series self = inr [nan]).
Proof.
  split; [apply aggregation_chunks_length|]. split; [|split].
  - destruct (collect_chunks_cases self)
      as [(e & ev & -> & He & _)|(chunks & self' & ev & -> & Hlen & _)]; assumption.
  - destruct (max_min_cases self)
      as [(e & ev & -> & He)|(hi & lo & self' & ev & -> & H)]; assumption.
  - intros H. unfold bitrate_series. rewrite H. now destruct (aggregation self).
Qed.

(** ** The bitrate of a chunk *)

(** C5, as amended: a chunk with fewer than 2 packets has the bitrate
    not-a-number; for a chunk with at least 2 packets whose first and last
    presentation times are defined and differ, the bitrate is the float of
    (sum of the sizes * 8 / 1000) divided by (last time - first time): only
    the first and the last time enter, no duration does. *)
Theorem bitrate_of_chunk (frame_list : list FrameEntry.t) :
  ((length frame_list < 2)%nat -> _bitrate_for_frame_list frame_list = inr nan) /\
  (forall first last_ first_pts last_pts kbit,
      (2 <= length frame_list)%nat ->
      head frame_list = Some first ->
      last frame_list = Some last_ ->
      FrameEntry.pts first = Some first_pts ->
      FrameEntry.pts last_ = Some last_pts ->
      Py.int_truediv (Py.sum_int (sizes frame_list) * 8) 1000 = inr kbit ->
      PrimFloat.eqb (PrimFloat.sub last_pts first_pts) zero = false ->
      _bitrate_for_frame_list frame_list =
      inr (PrimFloat.div kbit (PrimFloat.sub last_pts first_pts))).
Proof.
  unfold _bitrate_for_frame_list. split.
  - intros H. apply Nat.ltb_lt in H. now rewrite H.
  - intros first last_ first_pts last_pts kbit Hlen Hhead Hlast Hf Hl Hk Hz.
    apply Nat.ltb_ge in Hlen. rewrite Hlen, Hhead, Hlast, Hf, Hl, Hk. simpl.
    unfold Py.float_truediv. now rewrite Hz.
Qed.

(** ** Duration repair *)

Lemma repaired_later (ret : list FrameEntry.t) (k j : nat) (frame : FrameEntry.t) :
  (k <= j)%nat -> repaired ret k j frame = frame.
Proof.
  intros H. unfold repaired. apply Nat.ltb_ge in H. now rewrite H.
Qed.

Lemma repaired_other (ret : list FrameEntry.t) (k j : nat) (frame : FrameEntry.t) :
  j <> k -> repaired ret (S k) j frame = repaired ret k j frame.
Proof.
  intros H. unfold repaired.
  destruct (j <? k)%nat eqn:H1, (j <? S k)%nat eqn:H2; try reflexivity.
  - apply Nat.ltb_lt in H1. apply Nat.ltb_ge in H2. lia.
  - apply Nat.ltb_ge in H1. apply Nat.ltb_lt in H2. lia.
Qed.

(** The loop of [_fix_durations] after [k] turns. *)
Lemma fix_loop_prefix (ret : list FrameEntry.t) (k : nat) :
  (k <= length ret - 1)%nat ->
  let st := fold_left fix_step (seq 0 k) (fix_init ret) in
  (forall j, fx_ret st !! j = repaired ret k j <$> ret !! j) /\
  fx_last_duration st = last_delta ret k.
Proof.
  induction k as [|k IH]; intros Hk; cbv zeta.
  - simpl. split; [|reflexivity].
    intros j. destruct (ret !! j); reflexivity.
  - rewrite seq_S, fold_left_app. simpl.
    destruct IH as [Hret Hlast]; [lia|].
    set (st := fold_left fix_step (seq 0 k) (fix_init ret)) in *.
    assert (Hsk : (S k < length ret)%nat) by lia.
    destruct (lookup_lt_is_Some_2 ret k) as [curr Hcurr]; [lia|].
    destruct (lookup_lt_is_Some_2 ret (S k)) as [next Hnext]; [lia|].
    assert (Hc : fx_ret st !! k = Some curr).
    { rewrite Hret, Hcurr. simpl. now rewrite repaired_later. }
    assert (Hn : fx_ret st !! S k = Some next).
    { rewrite Hret, Hnext. simpl. rewrite repaired_later; [reflexivity|lia]. }
    assert (Hd : delta_at ret k =
                 match FrameEntry.pts curr, FrameEntry.pts next with
                 | Some p, Some q => Some (PrimFloat.sub q p)
                 | _, _ => None
                 end).
    { unfold delta_at. now rewrite Hcurr, Hnext. }
    assert (Hk' : repaired ret (S k) k curr =
                  match delta_at ret k with
                  | Some d => FrameEntry.set_duration curr (Some d)
                  | None => curr
                  end).
    { unfold repaired. now rewrite (proj2 (Nat.ltb_lt k (S k))) by lia. }
    unfold fix_step. rewrite Hc, Hn, Hd. rewrite Hd in Hk'.
    destruct (FrameEntry.pts curr) as [p|], (FrameEntry.pts next) as [q|]; simpl;
      (split; [|try reflexivity; exact Hlast]); intros j;
      (destruct (Nat.eq_dec j k) as [->|Hj];
       [|try (rewrite list_lookup_insert_ne by congruence); rewrite Hret;
         destruct (ret !! j); simpl; [rewrite repaired_other by exact Hj|];
         reflexivity]).
    + rewrite list_lookup_insert_eq by (eapply lookup_lt_Some, Hc).
      rewrite Hcurr. simpl. now rewrite Hk'.
    + rewrite Hc, Hcurr. simpl. now rewrite Hk'.
    + rewrite Hc, Hcurr. simpl. now rewrite Hk'.
    + rewrite Hc, Hcurr. simpl. now rewrite Hk'.
Qed.

Lemma length_set_last_duration (ret : list FrameEntry.t) (d : float) :
  length (set_last_duration ret d) = length ret.
Proof.
  unfold set_last_duration. destruct (ret !! _); [apply length_insert|reflexivity].
Qed.

Lemma fix_loop_lookup (ret : list FrameEntry.t) (j : nat) :
  fx_ret (fix_loop ret) !! j = repaired ret (length ret - 1) j <$> ret !! j.
Proof. now apply (fix_loop_prefix ret (length ret - 1)). Qed.

Lemma fix_loop_last_duration (ret : list FrameEntry.t) :
  fx_last_duration (fix_loop ret) = last_delta ret (length ret - 1).
Proof. now apply (fix_loop_prefix ret (length ret - 1)). Qed.

Lemma length_fix_loop (ret : list FrameEntry.t) :
  length (fx_ret (fix_loop ret)) = length ret.
Proof.
  destruct (Nat.lt_total (length (fx_ret (fix_loop ret))) (length ret)) as [H|[H|H]];
    [exfalso|exact H|exfalso].
  - destruct (lookup_lt_is_Some_2 ret (length (fx_ret (fix_loop ret))) H) as [f Hf].
    pose proof (fix_loop_lookup ret (length (fx_ret (fix_loop ret)))) as Hl.
    rewrite Hf in Hl. simpl in Hl. apply lookup_lt_Some in Hl. lia.
  - destruct (lookup_lt_is_Some_2 (fx_ret (fix_loop ret)) (length ret) H) as [f Hf].
    rewrite fix_loop_lookup in Hf.
    rewrite (lookup_ge_None_2 ret (length ret)) in Hf by lia. discriminate.
Qed.

Lemma length_fix_durations (ret : list FrameEntry.t) :
  length (_fix_durations ret).1 = length ret.
Proof.
  unfold _fix_durations. destruct (fx_last_duration _); simpl.
  - now rewrite length_set_last_duration, length_fix_loop.
  - apply length_fix_loop.
Qed.

(** [_fix_durations] on every record but the last: the delta of the pair
    when it is defined, the record as it was otherwise. *)
Lemma fix_durations_lookup (ret : list FrameEntry.t) (i : nat) (frame : FrameEntry.t) :
  (S i < length ret)%nat ->
  ret !! i = Some frame ->
  (_fix_durations ret).1 !! i =
  Some match delta_at ret i with
       | Some d => FrameEntry.set_duration frame (Some d)
       | None => frame
       end.
Proof.
  intros Hi Hf.
  assert (Hloop : fx_ret (fix_loop ret) !! i =
                  Some match delta_at ret i with
                       | Some d => FrameEntry.set_duration frame (Some d)
                       | None => frame
                       end).
  { rewrite fix_loop_lookup, Hf. simpl. unfold repaired.
    now rewrite (proj2 (Nat.ltb_lt i (length ret - 1))) by lia. }
  unfold _fix_durations. destruct (fx_last_duration _); simpl; [|exact Hloop].
  unfold set_last_duration. rewrite length_fix_loop.
  destruct (fx_ret (fix_loop ret) !! (length ret - 1)%nat); [|exact Hloop].
  rewrite list_lookup_insert_ne; [exact Hloop|lia].
Qed.

(** [_fix_durations] on the last record: the most recent delta, if any. *)
Lemma fix_durations_last (ret : list FrameEntry.t) (frame : FrameEntry.t) :
  ret !! (length ret - 1)%nat = Some frame ->
  (_fix_durations ret).1 !! (length ret - 1)%nat =
  Some match last_delta ret (length ret - 1) with
       | Some d => FrameEntry.set_duration frame (Some d)
       | None => frame
       end.
Proof.
  intros Hf.
  assert (Hloop : fx_ret (fix_loop ret) !! (length ret - 1)%nat = Some frame).
  { rewrite fix_loop_lookup, Hf. simpl. now rewrite repaired_later. }
  unfold _fix_durations. rewrite fix_loop_last_duration.
  destruct (last_delta ret _); simpl; [|exact Hloop].
  unfold set_last_duration. rewrite length_fix_loop, Hloop.
  apply list_lookup_insert_eq. rewrite length_fix_loop. eapply lookup_lt_Some, Hf.
Qed.

Lemma frame_entries_lookup (default : option float) (info : list PacketInfo) :
  forall idx i,
    frame_entries default idx info !! i =
    frame_entry default (idx + Z.of_nat i) <$> info !! i.
Proof.
  induction info as [|p info IH]; intros idx i; simpl; [reflexivity|].
  destruct i as [|i]; simpl.
  - now rewrite Z.add_0_r.
  - rewrite IH. now replace (idx + 1 + Z.of_nat i) with (idx + Z.pos (Pos.of_succ_nat i)) by lia.
Qed.

Lemma length_frame_entries (default : option float) (info : list PacketInfo) :
  forall idx, length (frame_entries default idx info) = length info.
Proof.
  induction info as [|p info IH]; intros idx; simpl; [reflexivity|]. now rewrite IH.
Qed.

Lemma default_duration_none (info : list PacketInfo) :
  Forall (fun p => duration_time p = None) info -> default_duration info = None.
Proof.
  induction 1 as [|p info Hp _ IH]; simpl; [reflexivity|]. now rewrite Hp.
Qed.

Lemma length_frames_of_packets (info : list PacketInfo) :
  length (frames_of_packets info).1 = length info.
Proof.
  unfold frames_of_packets. destruct (default_duration info); simpl.
  - apply length_frame_entries.
  - now rewrite length_fix_durations, length_frame_entries.
Qed.

(** [_fix_durations] writes no field but [duration]. *)
Lemma fix_durations_fields (ret : list FrameEntry.t) (j : nat) (frame' : FrameEntry.t) :
  (_fix_durations ret).1 !! j = Some frame' ->
  exists frame,
    ret !! j = Some frame /\
    frame' = FrameEntry.set_duration frame (FrameEntry.duration frame').
Proof.
  intros H. pose proof (lookup_lt_Some _ _ _ H) as Hj.
  rewrite length_fix_durations in Hj.
  destruct (lookup_lt_is_Some_2 ret j Hj) as [frame Hf].
  exists frame. split; [exact Hf|].
  destruct (Nat.eq_dec j (length ret - 1)%nat) as [->|Hne].
  - rewrite (fix_durations_last ret frame Hf) in H. inversion H as [H'].
    destruct (last_delta ret _); [reflexivity|now destruct frame].
  - rewrite (fix_durations_lookup ret j frame) in H by (lia || exact Hf).
    inversion H as [H']. destruct (delta_at ret j); [reflexivity|now destruct frame].
Qed.

Lemma fix_durations_pts (ret : list FrameEntry.t) (j : nat) (frame' : FrameEntry.t) :
  (_fix_durations ret).1 !! j = Some frame' ->
  FrameEntry.pts <$> ret !! j = Some (FrameEntry.pts frame').
Proof.
  intros H. destruct (fix_durations_fields ret j frame' H) as (frame & -> & Hf).
  simpl. now rewrite Hf.
Qed.

Lemma fix_durations_receives_delta (ret : list FrameEntry.t) (i : nat)
    (curr next : FrameEntry.t) (curr_pts next_pts : float) :
  ret !! i = Some curr -> ret !! S i = Some next ->
  FrameEntry.pts curr = Some curr_pts -> FrameEntry.pts next = Some next_pts ->
  receives_delta (_fix_durations ret).1 i.
Proof.
  intros Hc Hn Hpc Hpn.
  pose proof (lookup_lt_Some _ _ _ Hn) as Hlen.
  assert (Hd : delta_at ret i = Some (PrimFloat.sub next_pts curr_pts)).
  { unfold delta_at. now rewrite Hc, Hn, Hpc, Hpn. }
  pose proof (fix_durations_lookup ret i curr Hlen Hc) as Hi. rewrite Hd in Hi.
  destruct (lookup_lt_is_Some_2 (_fix_durations ret).1 (S i)) as [next' Hn'].
  { now rewrite length_fix_durations. }
  pose proof (fix_durations_pts ret (S i) next' Hn') as Hp. rewrite Hn in Hp.
  exists (FrameEntry.set_duration curr (Some (PrimFloat.sub next_pts curr_pts))),
    next', curr_pts, next_pts.
  repeat split; try assumption. simpl in Hp. congruence.
Qed.

Lemma frame_entries_pts (default : option float) (info : list PacketInfo) (idx : Z) :
  map FrameEntry.pts (frame_entries default idx info) = map pts_time info.
Proof.
  revert idx. induction info as [|p info IH]; intros idx; simpl; [reflexivity|].
  now rewrite IH.
Qed.

Lemma frames_of_packets_pts (info : list PacketInfo) :
  map FrameEntry.pts (frames_of_packets info).1 = map pts_time info.
Proof.
  unfold frames_of_packets.
  destruct (default_duration info); simpl; [apply frame_entries_pts|].
  rewrite <- (frame_entries_pts None info 1).
  apply list_eq. intros j. rewrite !list_lookup_fmap.
  destruct ((_fix_durations _).1 !! j) as [frame'|] eqn:Hj.
  - now rewrite (fix_durations_pts _ _ _ Hj).
  - apply lookup_ge_None_1 in Hj. rewrite length_fix_durations in Hj.
    now rewrite (lookup_ge_None_2 _ _ Hj).
Qed.

(** C6: for a packet sequence of length at least 2 in which no packet has an
    explicit duration and every packet has a presentation time, the repaired
    records keep their times, every record except the last has the duration
    [pts[i+1] - pts[i]], and the last record has the duration of the
    second-to-last. *)
Theorem durations_from_timestamps (info : list PacketInfo) :
  (2 <= length info)%nat ->
  Forall (fun p => duration_time p = None) info ->
  Forall (fun p => is_Some (pts_time p)) info ->
  map FrameEntry.pts (frames_of_packets info).1 = map pts_time info /\
  (forall i, (S i < length info)%nat -> receives_delta (frames_of_packets info).1 i) /\
  carries_forward (frames_of_packets info).1.
Proof.
  intros Hlen Hdur Hpts.
  split; [apply frames_of_packets_pts|].
  assert (Hdelta : forall i, (S i < length info)%nat ->
            receives_delta (frames_of_packets info).1 i /\
            exists d, delta_at (frame_entries None 1 info) i = Some d /\
                      exists curr, (frames_of_packets info).1 !! i = Some curr /\
                                   FrameEntry.duration curr = Some d).
  { intros i Hi. unfold frames_of_packets.
    rewrite (default_duration_none info Hdur). 
    set (ret := frame_entries None 1 info).
    destruct (lookup_lt_is_Some_2 info i) as [pi Hpi]; [lia|].
    destruct (lookup_lt_is_Some_2 info (S i)) as [pn Hpn]; [lia|].
    destruct (proj1 (Forall_lookup _ _) Hpts i pi Hpi) as [curr_pts Hcp].
    destruct (proj1 (Forall_lookup _ _) Hpts (S i) pn Hpn) as [next_pts Hnp].
    assert (Hc : ret !! i = Some (frame_entry None (1 + Z.of_nat i) pi)).
    { unfold ret. now rewrite frame_entries_lookup, Hpi. }
    assert (Hn : ret !! S i = Some (frame_entry None (1 + Z.of_nat (S i)) pn)).
    { unfold ret. now rewrite frame_entries_lookup, Hpn. }
    split.
    - eapply fix_durations_receives_delta; eauto.
    - exists (PrimFloat.sub next_pts curr_pts).
      assert (Hd : delta_at ret i = Some (PrimFloat.sub next_pts curr_pts)).
      { unfold delta_at. rewrite Hc, Hn. simpl. now rewrite Hcp, Hnp. }
      split; [exact Hd|].
      eexists. split.
      + apply fix_durations_lookup; [unfold ret; rewrite length_frame_entries; lia|exact Hc].
      + now rewrite Hd. }
  split; [intros i Hi; now apply Hdelta|].
  destruct (Hdelta (length info - 2)%nat) as [_ (d & Hd & before & Hb & Hbd)]; [lia|].
  unfold carries_forward. rewrite length_frames_of_packets.
  revert Hb. unfold frames_of_packets.
  rewrite (default_duration_none info Hdur).
  set (ret := frame_entries None 1 info) in *.
  assert (Hret : length ret = length info) by apply length_frame_entries.
  intros Hb.
  destruct (lookup_lt_is_Some_2 ret (length ret - 1)%nat) as [l Hl]; [lia|].
  pose proof (fix_durations_last ret l Hl) as Hlast.
  replace (length ret - 1)%nat with (S (length info - 2)) in Hlast at 2 by lia.
  simpl in Hlast. rewrite Hd, Hret in Hlast.
  eexists _, before. split; [exact Hlast|]. split; [exact Hb|].
  now rewrite Hbd.
Qed.

Lemma frame_entries_duration (default : option float) (info : list PacketInfo) (idx : Z) :
  map FrameEntry.duration (frame_entries default idx info) =
  map (fun p => match duration_time p with Some d => Some d | None => default end) info.
Proof.
  revert idx. induction info as [|p info IH]; intros idx; simpl; [reflexivity|].
  now rewrite IH.
Qed.

(** [default_duration] is the first explicit duration of the sequence. *)
Lemma default_duration_first (before : list PacketInfo) (p : PacketInfo)
    (after : list PacketInfo) (d : float) :
  Forall (fun q => duration_time q = None) before ->
  duration_time p = Some d ->
  default_duration (before ++ p :: after) = Some d.
Proof.
  induction 1 as [|q before Hq _ IH]; intros Hp; simpl.
  - now rewrite Hp.
  - rewrite Hq. now apply IH.
Qed.

(** C2, as amended: when every packet carries an explicit duration the
    records have exactly these durations. When no packet carries one, every
    record whose presentation time and whose successor's are both defined
    receives [pts[i+1] - pts[i]]. When some packets carry one and others do
    not, no delta is computed: a record without an explicit duration receives
    the first explicit duration of the sequence. *)
Theorem duration_repair (info : list PacketInfo) :
  (Forall (fun p => is_Some (duration_time p)) info ->
   map FrameEntry.duration (frames_of_packets info).1 = map duration_time info) /\
  (Forall (fun p => duration_time p = None) info ->
   forall i curr_pts next_pts,
     pts_time <$> info !! i = Some (Some curr_pts) ->
     pts_time <$> info !! S i = Some (Some next_pts) ->
     receives_delta (frames_of_packets info).1 i) /\
  (forall before p after d,
     info = before ++ p :: after ->
     Forall (fun q => duration_time q = None) before ->
     duration_time p = Some d ->
     map FrameEntry.duration (frames_of_packets info).1 =
     map (fun q => match duration_time q with
                   | Some x => Some x
                   | None => Some d
                   end) info).
Proof.
  split; [|split].
  - intros Hall. unfold frames_of_packets.
    destruct (default_duration info) as [d|] eqn:Hd; simpl.
    + rewrite frame_entries_duration. apply map_ext_Forall.
      eapply Forall_impl; [exact Hall|]. intros p [x Hx]. simpl. now rewrite Hx.
    + destruct info as [|p info]; [reflexivity|].
      inversion Hall as [|? ? [x Hx] _]; subst. simpl in Hd. now rewrite Hx in Hd.
  - intros Hnone i curr_pts next_pts Hc Hn. unfold frames_of_packets.
    rewrite (default_duration_none info Hnone).
    destruct (info !! i) as [pi|] eqn:Hpi; [|discriminate].
    destruct (info !! S i) as [pn|] eqn:Hpn; [|discriminate].
    simpl in Hc, Hn. inversion Hc as [Hc']. inversion Hn as [Hn'].
    eapply (fix_durations_receives_delta _ i
              (frame_entry None (1 + Z.of_nat i) pi)
              (frame_entry None (1 + Z.of_nat (S i)) pn)).
    + now rewrite frame_entries_lookup, Hpi.
    + now rewrite frame_entries_lookup, Hpn.
    + exact Hc'.
    + exact Hn'.
  - intros before p after d -> Hbefore Hp. unfold frames_of_packets.
    rewrite (default_duration_first before p after d Hbefore Hp). simpl.
    apply frame_entries_duration.
Qed.

(** ** Examples *)

Lemma durations_from_timestamps_witness :
  map FrameEntry.pts (frames_of_packets timestamps_only).1 = map pts_time timestamps_only /\
  (forall i, (S i < length timestamps_only)%nat ->
             receives_delta (frames_of_packets timestamps_only).1 i) /\
  carries_forward (frames_of_packets timestamps_only).1.
Proof.
  apply (durations_from_timestamps timestamps_only).
  - simpl. lia.
  - repeat constructor.
  - repeat constructor; eexists; reflexivity.
Defined.

Example timestamps_only_durations :
  map FrameEntry.duration (frames_of_packets timestamps_only).1 =
  [Some 1%float; Some 3%float; Some 3%float].
Proof. reflexivity. Qed.

(** Against C2 as stated: a sequence in which some record lacks an explicit
    duration, and whose first record does not receive [pts[1] - pts[0] = 2]:
    every record has the duration 0.5 of the first packet. *)
Lemma duration_repair_counterexample :
  Exists (fun p => duration_time p = None) one_explicit_duration /\
  map FrameEntry.duration (frames_of_packets one_explicit_duration).1 =
    [Some 0.5%float; Some 0.5%float; Some 0.5%float] /\
  ~ receives_delta (frames_of_packets one_explicit_duration).1 0.
Proof.
  split; [right; left; reflexivity|]. split; [reflexivity|].
  intros (curr & next & curr_pts & next_pts & Hc & Hn & Hpc & Hpn & Hd).
  vm_compute in Hc. vm_compute in Hn.
  inversion Hc; subst curr. inversion Hn; subst next.
  simpl in Hpc, Hpn, Hd. inversion Hpc; subst. inversion Hpn; subst.
  pose proof (f_equal (fun o => match o with
                                | Some x => PrimFloat.eqb x 0.5
                                | None => false
                                end) Hd) as Heq.
  vm_compute in Heq. discriminate.
Qed.

(** ** The pipeline *)

Lemma calculate_frame_sizes_packets (self : BitrateStats) (info : list PacketInfo) :
  dry_run self = false ->
  _calculate_frame_sizes (ProbePackets info) self =
  (inr (frames_of_packets info).1, set_frames (frames_of_packets info).1 self,
   probe_events self info).
Proof.
  intros Hdry. unfold _calculate_frame_sizes, run_command, probe_events. unfold_monad.
  rewrite Hdry. destruct (frames_of_packets info) as [frames warnings]. simpl.
  now rewrite app_nil_r.
Qed.

Lemma calculate_frame_sizes_exits (probe : ffprobe) (self : BitrateStats) :
  dry_run self = true \/ (exists stderr, probe = ProbeFailed stderr) ->
  exists code ev, _calculate_frame_sizes probe self = (inl (Py.SystemExit code), self, ev).
Proof.
  unfold _calculate_frame_sizes, run_command. unfold_monad.
  intros [Hdry|[stderr ->]].
  - rewrite Hdry. simpl. eauto.
  - destruct (dry_run self); simpl; eauto.
Qed.

Lemma calculate_duration_eq (self : BitrateStats) :
  _calculate_duration self =
  (inr (Py.round (Py.sum_float (known_durations (frames self))) 2),
   set_duration (Py.round (Py.sum_float (known_durations (frames self))) 2) self, []).
Proof. reflexivity. Qed.

Lemma calculate_fps_eq (self : BitrateStats) :
  _calculate_fps self =
  match Py.float_truediv (Py.float_of_len (length (frames self))) (duration self) with
  | inl e => (inl e, self, [])
  | inr v => (inr v, set_fps v self, [])
  end.
Proof.
  unfold _calculate_fps. unfold_monad. now destruct (Py.float_truediv _ _).
Qed.

Lemma known_durations_none (frames : list FrameEntry.t) :
  Forall (fun frame => FrameEntry.duration frame = None) frames ->
  known_durations frames = [].
Proof.
  unfold known_durations. induction 1 as [|f frames Hf _ IH]; [reflexivity|].
  simpl. now rewrite Hf.
Qed.

Ltac attributes :=
  cbn [input_file stream_type aggregation chunk_size dry_run duration fps
       max_bitrate min_bitrate moving_avg_bitrate frames bitrate_stats
       rounding_factor _chunks avg_bitrate avg_bitrate_over_chunks
       max_bitrate_factor set_duration set_fps set_max_bitrate set_min_bitrate
       set_frames set_bitrate_stats set__chunks set_avg_bitrate
       set_avg_bitrate_over_chunks set_max_bitrate_factor] in *.

Section Pipeline.
Context {numpy : Numpy}.


(** C1, on the code: when ffprobe gives packets and no record has a
    duration after the repair, the sum of the known durations is 0 and
    [calculate_statistics] raises [ZeroDivisionError] (in
    [_calculate_fps]); no statistics are produced. *)
Theorem undefined_durations_raise (self : BitrateStats) (info : list PacketInfo) :
  dry_run self = false ->
  Forall (fun frame => FrameEntry.duration frame = None) (frames_of_packets info).1 ->
  Py.sum_float (known_durations (frames_of_packets info).1) = zero /\
  calculate_statistics (ProbePackets info) self =
  (inl Py.ZeroDivisionError,
   set_duration zero (set_frames (frames_of_packets info).1 self),
   probe_events self info).
Proof.
  intros Hdry Hnone.
  assert (Hsum : Py.sum_float (known_durations (frames_of_packets info).1) = zero).
  { now rewrite known_durations_none. }
  split; [exact Hsum|].
  unfold calculate_statistics. unfold bind at 1.
  rewrite (calculate_frame_sizes_packets self info Hdry).
  unfold bind at 1. rewrite calculate_duration_eq.
  unfold bind at 1. rewrite calculate_fps_eq.
  cbn [frames set_frames set_duration duration]. rewrite Hsum.
  change (Py.round zero 2) with zero.
  unfold Py.float_truediv. change (PrimFloat.eqb zero zero) with true.
  cbn. now rewrite !app_nil_r.
Qed.

(** *** The chunk cache *)

Lemma set__chunks_same (self : BitrateStats) : set__chunks (_chunks self) self = self.
Proof. now destruct self. Qed.

Lemma collect_chunks_eq (self : BitrateStats) :
  _collect_chunks self =
  match series_of self with
  | inl e => (inl e, self, collect_events self)
  | inr chunks => (inr chunks, set__chunks chunks self, collect_events self)
  end.
Proof.
  unfold series_of, collect_events. destruct (_chunks self) as [|c cs] eqn:Hc.
  - now rewrite (collect_chunks_fresh self Hc).
  - rewrite collect_chunks_cached by (rewrite Hc; discriminate).
    now rewrite Hc, <- Hc, set__chunks_same.
Qed.

Lemma series_of_length (self : BitrateStats) (chunks : list float) :
  series_of self = inr chunks -> (1 <= length chunks)%nat.
Proof.
  unfold series_of. destruct (_chunks self) as [|c cs] eqn:Hc.
  - apply bitrate_series_length.
  - intros H. inversion H. simpl. lia.
Qed.

(** [_calculate_max_min_bitrate], by the series it finds. *)
Lemma calculate_max_min_eq (self : BitrateStats) :
  _calculate_max_min_bitrate self =
  match series_of self with
  | inl e => (inl e, self, collect_events self)
  | inr chunks =>
      match Py.max chunks, Py.min chunks with
      | inr hi, inr lo =>
          (inr (hi, lo),
           set_min_bitrate lo (set_max_bitrate hi (set__chunks chunks self)),
           collect_events self)
      | inl e, _ => (inl e, set__chunks chunks self, collect_events self)
      | inr hi, inl e =>
          (inl e, set_max_bitrate hi (set__chunks chunks self), collect_events self)
      end
  end.
Proof.
  unfold _calculate_max_min_bitrate. unfold bind at 1. rewrite collect_chunks_eq.
  destruct (series_of self) as [e|chunks] eqn:Hs; [reflexivity|].
  pose proof (series_of_length self chunks Hs) as Hlen.
  unfold bind at 1. unfold lift at 1.
  destruct (Py.max chunks) as [e|hi] eqn:Hmax; [now rewrite app_nil_r|].
  unfold bind at 1. unfold modify at 1. unfold bind at 1.
  rewrite collect_chunks_cached
    by (cbn; destruct chunks; [simpl in Hlen; lia|discriminate]).
  cbn [_chunks set_max_bitrate set__chunks].
  unfold_monad. destruct (Py.min chunks) as [e|lo]; cbn; now rewrite !app_nil_r.
Qed.

(** [_assemble_bitrate_statistics] once the series is cached. *)
Lemma assemble_eq (self : BitrateStats) :
  (1 <= length (_chunks self))%nat ->
  _assemble_bitrate_statistics self =
  match Py.int_truediv (Py.sum_int (sizes (frames self)) * 8) 1000 with
  | inl e => (inl e, self, [])
  | inr kbit =>
      match Py.float_truediv kbit (duration self) with
      | inl e => (inl e, self, [])
      | inr avg =>
          let over_chunks := np_mean (_chunks self) in
          let self1 := set_avg_bitrate_over_chunks over_chunks (set_avg_bitrate avg self) in
          match Py.float_truediv (max_bitrate self) avg with
          | inl e => (inl e, self1, [])
          | inr factor =>
              let stats := assembled self avg over_chunks factor in
              (inr stats,
               set_bitrate_stats (Some stats) (set_max_bitrate_factor factor self1), [])
          end
      end
  end.
Proof.
  intros Hlen.
  assert (Hcached : forall self', _chunks self' = _chunks self ->
            _collect_chunks self' = (inr (_chunks self), self', [])).
  { intros self' H. rewrite collect_chunks_cached; rewrite H; [reflexivity|].
    destruct (_chunks self); [simpl in Hlen; lia|discriminate]. }
  unfold _assemble_bitrate_statistics.
  unfold bind at 1. unfold get at 1.
  unfold bind at 1. unfold lift at 1.
  destruct (Py.int_truediv _ 1000) as [e|kbit]; [reflexivity|].
  unfold bind at 1. unfold lift at 1.
  destruct (Py.float_truediv kbit _) as [e|avg]; [reflexivity|].
  unfold bind at 1. unfold modify at 1.
  unfold bind at 1. rewrite Hcached by reflexivity.
  unfold bind at 1. unfold modify at 1.
  unfold bind at 1. unfold get at 1.
  unfold bind at 1. unfold lift at 1.
  cbn [max_bitrate set_avg_bitrate_over_chunks set_avg_bitrate].
  destruct (Py.float_truediv (max_bitrate self) avg) as [e|factor]; [reflexivity|].
  unfold bind at 1. unfold modify at 1.
  unfold bind at 1. unfold get at 1.
  unfold bind at 1. rewrite Hcached by reflexivity.
  unfold_monad. reflexivity.
Qed.

Lemma calculate_statistics_eq (probe : ffprobe) :
  calculate_statistics probe = (_calculate_frame_sizes probe ;;; after_probe).
Proof. reflexivity. Qed.

Lemma after_probe_eq (self : BitrateStats) : after_probe self = outcome self.
Proof.
  unfold after_probe, outcome.
  unfold bind at 1. rewrite calculate_duration_eq.
  unfold bind at 1. rewrite calculate_fps_eq. attributes.
  destruct (Py.float_truediv (Py.float_of_len _) _) as [e|v]; [reflexivity|].
  unfold bind at 1. rewrite calculate_max_min_eq.
  unfold series_of, collect_events, bitrate_series. attributes.
  fold (bitrate_series self). fold (series_of self). fold (collect_events self).
  destruct (series_of self) as [e|chunks] eqn:Hs; [reflexivity|].
  pose proof (series_of_length self chunks Hs) as Hlen.
  destruct (Py.max chunks) as [e|hi]; [reflexivity|].
  destruct (Py.min chunks) as [e|lo]; [reflexivity|].
  unfold bind at 1. rewrite assemble_eq by (attributes; exact Hlen). attributes.
  destruct (Py.int_truediv _ 1000) as [e|kbit]; [now rewrite app_nil_r|].
  destruct (Py.float_truediv kbit _) as [e|avg]; [now rewrite app_nil_r|].
  cbv zeta.
  destruct (Py.float_truediv hi avg) as [e|factor]; [now rewrite app_nil_r|].
  unfold_monad. attributes. now rewrite app_nil_r.
Qed.

Lemma set_frames_same (self : BitrateStats) : set_frames (frames self) self = self.
Proof. now destruct self. Qed.

Lemma max_of_empty_series (chunks : list float) (e : Py.exn) :
  (1 <= length chunks)%nat -> Py.max chunks = inl e -> False.
Proof. intros H1 H2. destruct (max_of_nonempty chunks H1). congruence. Qed.

Lemma min_of_empty_series (chunks : list float) (e : Py.exn) :
  (1 <= length chunks)%nat -> Py.min chunks = inl e -> False.
Proof. intros H1 H2. destruct (min_of_nonempty chunks H1). congruence. Qed.

Ltac run_again :=
  unfold outcome, series_of, collect_events, bitrate_series, assembled;
  cbv beta iota zeta
      delta [input_file stream_type aggregation chunk_size dry_run duration fps
             max_bitrate min_bitrate moving_avg_bitrate frames bitrate_stats
             rounding_factor _chunks avg_bitrate avg_bitrate_over_chunks
             max_bitrate_factor set_duration set_fps set_max_bitrate
             set_min_bitrate set_frames set_bitrate_stats set__chunks
             set_avg_bitrate set_avg_bitrate_over_chunks set_max_bitrate_factor];
  repeat match goal with
         | H : ?x = _ |- context [match ?x with _ => _ end] =>
             rewrite H; cbv beta iota zeta
         end.

(** Running the steps after the probe once more, on the instance they
    left, gives the same value or exception and leaves the instance as it
    is; when the first run produced the statistics, the second takes the
    series from the cache. *)
Lemma outcome_idempotent (self : BitrateStats) (r : Py.result Summary.t)
    (self' : BitrateStats) (ev : list event) :
  outcome self = (r, self', ev) ->
  exists ev',
    outcome self' = (r, self', ev') /\
    frames self' = frames self /\ dry_run self' = dry_run self /\
    input_file self' = input_file self /\ stream_type self' = stream_type self /\
    (forall stats, r = inr stats -> ev = collect_events self /\ ev' = []).
Proof.
  destruct self as [inf st ag cs dr du fp mx mn mv fr bs rf ch ab ao mf].
  intros H. revert H. run_again.
  destruct (Py.float_truediv (Py.float_of_len _) _) as [e|v] eqn:Hfps.
  { intros H. inversion H; subst. run_again.
    eexists. repeat split; try reflexivity; discriminate. }
  assert (Hseries : exists series, 
            match ch with
            | [] => comprehension _bitrate_for_frame_list (aggregation_chunks ag cs fr)
            | _ :: _ => inr ch
            end = series) by eauto.
  destruct Hseries as [series Hseries]. rewrite Hseries.
  destruct series as [e|chunks].
  { intros H. inversion H; subst. run_again.
    eexists. repeat split; try reflexivity; discriminate. }
  assert (Hlen : (1 <= length chunks)%nat).
  { destruct ch as [|c ch'].
    - apply comprehension_length in Hseries. rewrite Hseries.
      apply aggregation_chunks_length.
    - inversion Hseries. simpl. lia. }
  destruct chunks as [|c chunks]; [simpl in Hlen; lia|].
  destruct (Py.max (c :: chunks)) as [e|hi] eqn:Hmax;
    [exfalso; eapply max_of_empty_series; eauto|].
  destruct (Py.min (c :: chunks)) as [e|lo] eqn:Hmin;
    [exfalso; eapply min_of_empty_series; eauto|].
  destruct (Py.int_truediv _ 1000) as [e|kbit] eqn:Hkbit.
  { intros H. inversion H; subst. run_again.
    eexists. repeat split; try reflexivity; discriminate. }
  destruct (Py.float_truediv kbit _) as [e|avg] eqn:Havg.
  { intros H. inversion H; subst. run_again.
    eexists. repeat split; try reflexivity; discriminate. }
  destruct (Py.float_truediv hi avg) as [e|factor] eqn:Hfactor.
  { intros H. inversion H; subst. run_again.
    eexists. repeat split; try reflexivity; discriminate. }
  intros H. inversion H; subst. run_again.
  eexists. repeat split; try reflexivity.
Qed.

(** What a successful run of the steps after the probe has computed. *)
Lemma outcome_success (self : BitrateStats) (stats : Summary.t) (self' : BitrateStats)
    (ev : list event) :
  outcome self = (inr stats, self', ev) ->
  let d := Py.round (Py.sum_float (known_durations (frames self))) 2 in
  frames self' = frames self /\
  duration self' = d /\
  Py.float_truediv (Py.float_of_len (length (frames self))) d = inr (fps self') /\
  (exists kbit avg,
      Py.int_truediv (Py.sum_int (sizes (frames self)) * 8) 1000 = inr kbit /\
      Py.float_truediv kbit d = inr avg /\
      avg_bitrate self' = Some avg /\
      Summary.avg_bitrate stats = Py.round avg (rounding_factor self)) /\
  Summary.duration stats = Py.round d (rounding_factor self) /\
  Summary.avg_fps stats = Py.round (fps self') (rounding_factor self) /\
  Summary.num_frames stats = length (frames self).
Proof.
  destruct self as [inf st ag cs dr du fp mx mn mv fr bs rf ch ab ao mf].
  unfold outcome, assembled. attributes. cbv zeta.
  destruct (Py.float_truediv (Py.float_of_len _) _) as [e|v] eqn:Hfps; [discriminate|].
  destruct (series_of _) as [e|chunks]; [discriminate|].
  destruct (Py.max chunks) as [e|hi]; [discriminate|].
  destruct (Py.min chunks) as [e|lo]; [discriminate|].
  destruct (Py.int_truediv _ 1000) as [e|kbit] eqn:Hkbit; [discriminate|].
  destruct (Py.float_truediv kbit _) as [e|avg] eqn:Havg; [discriminate|].
  destruct (Py.float_truediv hi avg) as [e|factor]; [discriminate|].
  intros H. inversion H; subst. attributes.
  repeat split; try reflexivity. exists kbit, avg. now repeat split.
Qed.

Lemma init_attributes (input_file_ stream_type_ aggregation_ : string)
    (chunk_size_ : float) (dry_run_ : bool) (self : BitrateStats) :
  __init__ input_file_ stream_type_ aggregation_ chunk_size_ dry_run_ = inr self ->
  rounding_factor self = 3 /\ _chunks self = [] /\ frames self = [] /\
  bitrate_stats self = None /\ dry_run self = dry_run_ /\
  chunk_size self = chunk_size_ /\ input_file self = input_file_.
Proof.
  unfold __init__. intros H.
  repeat match type of H with
         | match ?x with _ => _ end = _ => destruct x; try discriminate
         end;
    inversion H; subst; now repeat split.
Qed.

(** A run of [calculate_statistics] that returns has probed packets, and
    the steps after the probe ran on the records made of them. *)
Lemma calculate_statistics_success (probe : ffprobe) (self : BitrateStats)
    (stats : Summary.t) (self' : BitrateStats) (ev : list event) :
  calculate_statistics probe self = (inr stats, self', ev) ->
  exists info ev',
    probe = ProbePackets info /\ dry_run self = false /\
    outcome (set_frames (frames_of_packets info).1 self) = (inr stats, self', ev') /\
    ev = probe_events self info ++ ev'.
Proof.
  rewrite calculate_statistics_eq. unfold bind. intros H.
  destruct (dry_run self) eqn:Hdry.
  - destruct (calculate_frame_sizes_exits probe self) as (code & ev0 & H0); [now left|].
    rewrite H0 in H. discriminate.
  - destruct probe as [stderr|info].
    + destruct (calculate_frame_sizes_exits (ProbeFailed stderr) self)
        as (code & ev0 & H0); [right; eauto|].
      rewrite H0 in H. discriminate.
    + rewrite (calculate_frame_sizes_packets self info Hdry), after_probe_eq in H.
      destruct (outcome _) as [[r s'] ev'] eqn:Ho. inversion H; subst.
      now exists info, ev'.
Qed.

(** C3, as amended: the sum of the known durations is rounded to 2 decimal
    digits as soon as it is computed. The reported duration is that rounded
    value, rounded to 3 digits at presentation; the average frame rate and
    the whole-stream average bitrate are computed from it, not from the
    unrounded sum, and are rounded to 3 digits at presentation. *)
Theorem duration_rounded_to_two_digits (input_file_ stream_type_ aggregation_ : string)
    (chunk_size_ : float) (dry_run_ : bool) (probe : ffprobe)
    (self : BitrateStats) (stats : Summary.t) (self' : BitrateStats) (ev : list event) :
  __init__ input_file_ stream_type_ aggregation_ chunk_size_ dry_run_ = inr self ->
  calculate_statistics probe self = (inr stats, self', ev) ->
  let total := Py.sum_float (known_durations (frames self')) in
  duration self' = Py.round total 2 /\
  Summary.duration stats = Py.round (Py.round total 2) 3 /\
  Py.float_truediv (Py.float_of_len (length (frames self'))) (Py.round total 2)
    = inr (fps self') /\
  Summary.avg_fps stats = Py.round (fps self') 3 /\
  exists kbit avg,
    Py.int_truediv (Py.sum_int (sizes (frames self')) * 8) 1000 = inr kbit /\
    Py.float_truediv kbit (Py.round total 2) = inr avg /\
    avg_bitrate self' = Some avg /\
    Summary.avg_bitrate stats = Py.round avg 3.
Proof.
  intros Hinit Hrun.
  destruct (init_attributes _ _ _ _ _ _ Hinit) as (Hrf & _).
  destruct (calculate_statistics_success _ _ _ _ _ Hrun) as (info & ev' & _ & _ & Ho & _).
  destruct (outcome_success _ _ _ _ Ho)
    as (Hfr & Hd & Hfps & (kbit & avg & Hk & Ha & Hab & Hsa) & Hsd & Hsf & _).
  attributes. rewrite Hrf in *. cbv zeta. rewrite Hfr.
  repeat split; try assumption. now exists kbit, avg.
Qed.

(** C4, as amended: a second call of [calculate_statistics] on the same
    input returns the same value (or raises the same exception) as the first
    and leaves the instance as the first call left it. Only the bitrate
    series of the chunks is cached: when the first call returned, the second
    runs ffprobe again and emits exactly the events of the probe, none of
    the chunk collection, while a first call on an instance without cached
    series has collected the chunks. *)
Theorem second_call_same_result (probe : ffprobe) (self : BitrateStats) :
  let first := calculate_statistics probe self in
  let second := calculate_statistics probe first.1.2 in
  second.1.1 = first.1.1 /\
  second.1.2 = first.1.2 /\
  (forall stats,
      first.1.1 = inr stats ->
      exists info,
        probe = ProbePackets info /\
        second.2 = probe_events self info /\
        (_chunks self = [] -> first.2 = probe_events self info ++ [debug_collecting])).
Proof.
  cbv zeta.
  destruct (calculate_statistics probe self) as [[r1 s1] ev1] eqn:H1. cbn [fst snd].
  destruct (calculate_statistics probe s1) as [[r2 s2] ev2] eqn:H2. cbn [fst snd].
  rewrite calculate_statistics_eq in H1, H2. unfold bind in H1, H2.
  destruct (dry_run self) eqn:Hdry.
  { destruct (calculate_frame_sizes_exits probe self) as (code & ev0 & H0); [now left|].
    rewrite H0 in H1. inversion H1; subst. rewrite H0 in H2. inversion H2; subst.
    split; [reflexivity|]. split; [reflexivity|]. intros stats H. discriminate H. }
  destruct probe as [stderr|info].
  { destruct (calculate_frame_sizes_exits (ProbeFailed stderr) self)
      as (code & ev0 & H0); [right; eauto|].
    rewrite H0 in H1. inversion H1; subst. rewrite H0 in H2. inversion H2; subst.
    split; [reflexivity|]. split; [reflexivity|]. intros stats H. discriminate H. }
  rewrite (calculate_frame_sizes_packets self info Hdry), after_probe_eq in H1.
  destruct (outcome _) as [[r s'] ev'] eqn:Ho. inversion H1; subst.
  destruct (outcome_idempotent _ _ _ _ Ho)
    as (ev3 & Ho2 & Hfr & Hdry' & Hin & Hst & Hev).
  attributes. rewrite Hdry in Hdry'.
  rewrite (calculate_frame_sizes_packets s1 info Hdry') in H2.
  rewrite <- Hfr, set_frames_same, after_probe_eq, Ho2 in H2. inversion H2; subst.
  split; [reflexivity|]. split; [reflexivity|].
  intros stats ->. destruct (Hev stats eq_refl) as [-> ->].
  exists info. split; [reflexivity|].
  unfold probe_events, ffprobe_cmd. rewrite Hin, Hst, app_nil_r.
  split; [reflexivity|].
  intros Hc. unfold collect_events. attributes. now rewrite Hc.
Qed.

End Pipeline.

(** ** Examples on instances *)

Example init_time : __init__ "in.mp4" "video" "time" 1 false = inr (instance time).
Proof. reflexivity. Qed.

Example init_gop : __init__ "in.mp4" "video" "gop" 1 false = inr (instance gop).
Proof. reflexivity. Qed.

Example init_gop_audio :
  __init__ "in.mp4" "audio" "gop" 1 false =
  inl (Py.ValueError "GOP aggregation for audio does not make sense").
Proof. reflexivity. Qed.

Lemma undefined_durations_raise_witness :
  Py.sum_float (known_durations (frames_of_packets untimed_packet).1) = zero /\
  calculate_statistics (numpy := sequential_numpy) (ProbePackets untimed_packet)
    (instance time) =
  (inl Py.ZeroDivisionError,
   set_duration zero (set_frames (frames_of_packets untimed_packet).1 (instance time)),
   probe_events (instance time) untimed_packet).
Proof.
  apply (undefined_durations_raise (numpy := sequential_numpy)).
  - reflexivity.
  - repeat constructor.
Defined.

(** Against C3 as stated: the sum of the durations is 1.00390625; the
    reported duration is 1, which is not that sum rounded to 3 digits, and
    the frame rate the instance holds is 1, which is not the frame count
    divided by the unrounded sum. *)
Lemma duration_rounded_counterexample :
  match calculate_statistics (numpy := sequential_numpy) (ProbePackets long_packet)
          (instance time) with
  | (inr stats, self', _) =>
      let total := Py.sum_float (known_durations (frames self')) in
      total = 1.00390625%float /\
      Summary.duration stats = 1%float /\
      PrimFloat.eqb (Summary.duration stats) (Py.round total 3) = false /\
      fps self' = 1%float /\
      PrimFloat.eqb (fps self')
        (PrimFloat.div (Py.float_of_len (length (frames self'))) total) = false
  | (inl _, _, _) => False
  end.
Proof. vm_compute. repeat split. Qed.

Lemma duration_rounded_witness :
  exists stats self' ev,
    calculate_statistics (numpy := sequential_numpy) (ProbePackets long_packet)
      (instance time) = (inr stats, self', ev) /\
    duration self' = Py.round (Py.sum_float (known_durations (frames self'))) 2 /\
    Summary.duration stats =
      Py.round (Py.round (Py.sum_float (known_durations (frames self'))) 2) 3.
Proof.
  destruct (calculate_statistics (numpy := sequential_numpy) (ProbePackets long_packet)
              (instance time)) as [[[e|stats] self'] ev] eqn:Hrun;
    [vm_compute in Hrun; discriminate|].
  exists stats, self', ev. split; [reflexivity|].
  destruct (duration_rounded_to_two_digits (numpy := sequential_numpy)
              "in.mp4" "video" "time" 1 false (ProbePackets long_packet)
              (instance time) stats self' ev init_time Hrun) as (H1 & H2 & _).
  now split.
Defined.

Example two_gops_chunks :
  map (map FrameEntry.n)
    (aggregation_chunks gop 1 (frames_of_packets two_gops).1) = [[1; 2; 3]; [4; 5]].
Proof. reflexivity. Qed.

Example two_gops_series :
  bitrate_series (set_frames (frames_of_packets two_gops).1 (instance gop)) =
  inr [16%float; 24%float].
Proof. vm_compute. reflexivity. Qed.

(** With a chunk size of one second, each packet of [three_seconds] reaches
    it and is a chunk of its own; a chunk of one packet has no bitrate. *)
Example three_seconds_chunks :
  map (map FrameEntry.n)
    (aggregation_chunks time 1 (frames_of_packets three_seconds).1) = [[1]; [2]; [3]].
Proof. reflexivity. Qed.

Example three_seconds_series :
  bitrate_series (set_frames (frames_of_packets three_seconds).1 (instance time)) =
  inr [nan; nan; nan].
Proof. vm_compute. reflexivity. Qed.

Example no_packet_series : bitrate_series (instance time) = inr [nan].
Proof. reflexivity. Qed.

(** Against C4 as stated: the first call returns statistics, and the second
    call, which returns the same statistics, runs ffprobe again: its events
    are those of the probe. *)
Lemma second_call_probes_again :
  match calculate_statistics (numpy := sequential_numpy) (ProbePackets two_gops)
          (instance gop) with
  | (inr stats, self', _) =>
      calculate_statistics (numpy := sequential_numpy) (ProbePackets two_gops) self' =
      (inr stats, self',
       [LogDebug "Calculating frame size from in.mp4";
        RunCommand (ffprobe_cmd (instance gop))])
  | (inl _, _, _) => False
  end.
Proof. vm_compute. reflexivity. Qed.

(** Against C5 as stated: a chunk of 2 packets whose first and last
    presentation times are defined, and for which the code gives no bitrate:
    it raises [ZeroDivisionError]. *)
Lemma zero_span_chunk_raises :
  (2 <= length same_time_chunk)%nat /\
  FrameEntry.pts <$> head same_time_chunk = Some (Some 1%float) /\
  FrameEntry.pts <$> last same_time_chunk = Some (Some 1%float) /\
  _bitrate_for_frame_list same_time_chunk = inl Py.ZeroDivisionError.
Proof. vm_compute. repeat split. lia. Qed.

Lemma bitrate_of_chunk_witness :
  _bitrate_for_frame_list (frames_of_packets two_gops).1 =
  inr (PrimFloat.div 56 (PrimFloat.sub 4 0)).
Proof.
  eapply (proj2 (bitrate_of_chunk (frames_of_packets two_gops).1)).
  - simpl. lia.
  - reflexivity.
  - reflexivity.
  - reflexivity.
  - reflexivity.
  - vm_compute. reflexivity.
  - vm_compute. reflexivity.
Defined.

(** * Further properties *)

(** ** The shape of the chunks *)

Lemma append_if_nonempty_Forall (P : list FrameEntry.t -> Prop)
    (chunks : list (list FrameEntry.t)) (curr : list FrameEntry.t) :
  Forall P chunks -> (curr <> [] -> P curr) -> Forall P (append_if_nonempty chunks curr).
Proof.
  intros Hc Hp. destruct curr as [|f curr]; simpl; [exact Hc|].
  apply Forall_app. split; [exact Hc|]. constructor; [|constructor].
  apply Hp. discriminate.
Qed.

Lemma gop_loop_Forall (P : list FrameEntry.t -> Prop) :
  (forall frame, P [frame]) ->
  (forall curr frame,
      P curr -> FrameEntry.frame_type frame = Non_I -> P (curr ++ [frame])) ->
  forall frames chunks curr,
    Forall P chunks -> P curr ->
    Forall P (fst (fold_left gop_step frames (chunks, curr))) /\
    P (snd (fold_left gop_step frames (chunks, curr))).
Proof.
  intros Hone Hsnoc frames.
  induction frames as [|f frames IH]; intros chunks curr Hc Hp.
  - now split.
  - simpl. destruct (FrameEntry.frame_type f) eqn:Hf.
    + apply IH; [|apply Hone]. now apply append_if_nonempty_Forall.
    + apply IH; [exact Hc|]. now apply Hsnoc.
Qed.

Lemma time_loop_Forall (chunk_size : float) (P : list FrameEntry.t -> Prop) :
  (forall frame, P [frame]) ->
  (forall curr frame, P curr -> P (curr ++ [frame])) ->
  forall frames chunks curr agg_time,
    Forall P chunks -> P curr ->
    Forall P (fst (fst (fold_left (time_step chunk_size) frames (chunks, curr, agg_time)))) /\
    P (snd (fst (fold_left (time_step chunk_size) frames (chunks, curr, agg_time)))).
Proof.
  intros Hone Hsnoc frames.
  induction frames as [|f frames IH]; intros chunks curr agg_time Hc Hp.
  - now split.
  - simpl. destruct (PrimFloat.ltb agg_time chunk_size).
    + apply IH; [exact Hc|]. now apply Hsnoc.
    + apply IH; [|apply Hone]. now apply append_if_nonempty_Forall.
Qed.

Lemma aggregation_chunks_Forall (P : list FrameEntry.t -> Prop)
    (aggregation : Aggregation) (chunk_size : float) (frames : list FrameEntry.t) :
  (forall frame, P [frame]) ->
  (forall curr frame,
      P curr -> (aggregation = gop -> FrameEntry.frame_type frame = Non_I) ->
      P (curr ++ [frame])) ->
  P [] ->
  Forall P (aggregation_chunks aggregation chunk_size frames).
Proof.
  intros Hone Hsnoc Hnil. unfold aggregation_chunks. destruct aggregation.
  - destruct (time_loop_Forall chunk_size P Hone) with (frames := frames)
      (chunks := @nil (list FrameEntry.t)) (curr := @nil FrameEntry.t) (agg_time := zero)
      as [H1 H2]; [|constructor|exact Hnil|].
    { intros curr frame Hp. apply Hsnoc; [exact Hp|discriminate]. }
    destruct (fold_left (time_step chunk_size) frames _) as [[chunks curr] agg].
    apply Forall_app. split; [exact H1|]. now constructor.
  - destruct (gop_loop_Forall P Hone) with (frames := frames)
      (chunks := @nil (list FrameEntry.t)) (curr := @nil FrameEntry.t)
      as [H1 H2]; [|constructor|exact Hnil|].
    { intros curr frame Hp Hf. apply Hsnoc; [exact Hp|now intros _]. }
    destruct (fold_left gop_step frames _) as [chunks curr].
    apply Forall_app. split; [exact H1|]. now constructor.
Qed.

(** X1: in both modes the chunker produces an empty chunk only for the empty
    packet sequence, where the single chunk is empty: the chunks of a
    sequence with at least one packet all have at least one packet. *)
Theorem chunks_are_nonempty (aggregation : Aggregation) (chunk_size : float)
    (frame : FrameEntry.t) (frames : list FrameEntry.t) :
  Forall (fun chunk => (1 <= length chunk)%nat)
    (aggregation_chunks aggregation chunk_size (frame :: frames)) /\
  aggregation_chunks aggregation chunk_size [] = [[]].
Proof.
  split; [|now destruct aggregation].
  set (P := fun chunk : list FrameEntry.t => (1 <= length chunk)%nat).
  assert (Hone : forall f, P [f]) by (intros f; unfold P; simpl; lia).
  assert (Hsnoc : forall c f, P c -> P (c ++ [f])).
  { intros c f _. unfold P. rewrite length_app. simpl. lia. }
  unfold aggregation_chunks. destruct aggregation; cbn [fold_left].
  - assert (Hst : exists agg, time_step chunk_size ([], [], zero) frame = ([], [frame], agg)).
    { unfold time_step. destruct (PrimFloat.ltb zero chunk_size); eauto. }
    destruct Hst as [agg ->].
    destruct (time_loop_Forall chunk_size P Hone Hsnoc frames [] [frame] agg)
      as [H1 H2]; [constructor|apply Hone|].
    destruct (fold_left (time_step chunk_size) frames _) as [[chunks curr] agg'].
    apply Forall_app. split; [exact H1|]. now constructor.
  - assert (Hst : gop_step ([], []) frame = ([], [frame])).
    { unfold gop_step. now destruct (FrameEntry.frame_type frame). }
    rewrite Hst.
    destruct (gop_loop_Forall P Hone (fun c f H _ => Hsnoc c f H) frames [] [frame])
      as [H1 H2]; [constructor|apply Hone|].
    destruct (fold_left gop_step frames _) as [chunks curr].
    apply Forall_app. split; [exact H1|]. now constructor.
Qed.

(** X2: in GOP mode no packet after the first of a chunk is a key frame:
    with the key frame at the head, a chunk is one group of pictures. *)
Theorem gop_chunks_key_only_first (chunk_size : float) (frames : list FrameEntry.t) :
  Forall key_only_first (aggregation_chunks gop chunk_size frames).
Proof.
  apply aggregation_chunks_Forall.
  - intros frame. constructor.
  - intros curr frame Hc Hf. unfold key_only_first in *.
    destruct curr as [|f curr]; simpl; [constructor|].
    apply Forall_app. split; [exact Hc|]. constructor; [now apply Hf|constructor].
  - constructor.
Qed.

Lemma time_step_minimal (chunk_size : float)
    (st : list (list FrameEntry.t) * list FrameEntry.t * float) (frame : FrameEntry.t) :
  PrimFloat.ltb zero chunk_size = true ->
  time_minimal_invariant chunk_size st ->
  time_minimal_invariant chunk_size (time_step chunk_size st frame).
Proof.
  intros Hpos. destruct st as [[chunks curr] agg_time].
  unfold time_minimal_invariant, time_step. simpl.
  intros (Hclosed & Hopen & Hagg).
  destruct (PrimFloat.ltb agg_time chunk_size) eqn:Hlt; simpl.
  - split; [exact Hclosed|]. split.
    + intros init f Heq. apply app_inj_tail in Heq. destruct Heq as [<- _].
      now rewrite <- (same_number_ltb _ _ _ Hagg).
    + rewrite chunk_duration_snoc. now apply same_number_add.
  - split; [|split].
    + apply append_if_nonempty_Forall; [exact Hclosed|now intros _].
    + intros init f Heq. apply (app_inj_tail [] init frame f) in Heq.
      destruct Heq as [<- _]. exact Hpos.
    + apply same_number_sym, add_zero_same_number.
Qed.

Lemma time_loop_minimal (chunk_size : float) (frames : list FrameEntry.t) :
  PrimFloat.ltb zero chunk_size = true ->
  forall st,
    time_minimal_invariant chunk_size st ->
    time_minimal_invariant chunk_size (fold_left (time_step chunk_size) frames st).
Proof.
  intros Hpos. induction frames as [|f frames IH]; intros st Hst; simpl; [exact Hst|].
  now apply IH, time_step_minimal.
Qed.

(** X3: in time mode with a positive chunk size every chunk, the last
    included, is below the chunk size without its last packet: a chunk is
    closed as soon as its accumulated duration reaches the chunk size, so
    the chunks are as short as the threshold allows. *)
Theorem time_chunks_are_minimal (chunk_size : float) (frames : list FrameEntry.t) :
  PrimFloat.ltb zero chunk_size = true ->
  Forall (minimal chunk_size) (aggregation_chunks time chunk_size frames).
Proof.
  intros Hpos. unfold aggregation_chunks.
  assert (Hinit : time_minimal_invariant chunk_size ([], [], zero)).
  { split; [constructor|]. split; [|apply same_number_refl].
    intros init f Heq. now destruct init. }
  pose proof (time_loop_minimal chunk_size frames Hpos _ Hinit) as (Hclosed & Hopen & _).
  destruct (fold_left (time_step chunk_size) frames _) as [[chunks curr] agg].
  apply Forall_app. split; [exact Hclosed|]. now constructor.
Qed.

Lemma time_chunks_are_minimal_witness :
  Forall (minimal 2) (aggregation_chunks time 2 (frames_of_packets three_seconds).1).
Proof. apply time_chunks_are_minimal. reflexivity. Defined.

Example three_seconds_chunks_of_two :
  map (map FrameEntry.n)
    (aggregation_chunks time 2 (frames_of_packets three_seconds).1) = [[1; 2]; [3]].
Proof. reflexivity. Qed.

(** ** Not-a-number *)

Lemma SFcompare_refl (x : spec_float) : x = S754_nan \/ SFcompare x x = Some Eq.
Proof.
  destruct x as [s|s| |s m e]; simpl; auto; right.
  - now destruct s.
  - pose proof (Z.compare_refl e) as He.
    pose proof (Pos.compare_cont_refl m Eq) as Hm.
    destruct s; destruct (e ?= e); try discriminate; now rewrite Hm.
Qed.

Lemma is_nan_eq (x : float) : is_nan x = true -> x = nan.
Proof.
  unfold is_nan. rewrite FloatAxioms.eqb_spec. unfold SFeqb. intros H.
  destruct (SFcompare_refl (Prim2SF x)) as [Hx|Hx].
  - apply Prim2SF_inj. now rewrite Hx.
  - rewrite Hx in H. discriminate.
Qed.

Lemma ltb_nan_l (x : float) : PrimFloat.ltb nan x = false.
Proof. rewrite ltb_spec. reflexivity. Qed.

Lemma ltb_nan_r (x : float) : PrimFloat.ltb x nan = false.
Proof.
  rewrite ltb_spec. change (Prim2SF nan) with S754_nan.
  unfold SFltb. now destruct (Prim2SF x).
Qed.

Lemma sub_nan_l (y : float) : PrimFloat.sub nan y = nan.
Proof. apply Prim2SF_inj. rewrite sub_spec. reflexivity. Qed.

Lemma sub_nan_r (x : float) : PrimFloat.sub x nan = nan.
Proof.
  apply Prim2SF_inj. rewrite sub_spec. change (Prim2SF nan) with S754_nan.
  unfold SF64sub, SFsub. now destruct (Prim2SF x).
Qed.

Lemma div_nan_r (x : float) : PrimFloat.div x nan = nan.
Proof.
  apply Prim2SF_inj. rewrite div_spec. change (Prim2SF nan) with S754_nan.
  unfold SF64div, SFdiv. now destruct (Prim2SF x).
Qed.

(** X4: a chunk of at least 2 packets whose first or last packet has no
    presentation time has the bitrate not-a-number (its size total being
    within the range of a float): the missing time does not raise, it
    propagates. *)
Theorem bitrate_without_pts (frame_list : list FrameEntry.t) (first last_ : FrameEntry.t)
    (kbit : float) :
  (2 <= length frame_list)%nat ->
  head frame_list = Some first ->
  last frame_list = Some last_ ->
  FrameEntry.pts first = None \/ FrameEntry.pts last_ = None ->
  Py.int_truediv (Py.sum_int (sizes frame_list) * 8) 1000 = inr kbit ->
  _bitrate_for_frame_list frame_list = inr nan.
Proof.
  intros Hlen Hhead Hlast Hpts Hk. unfold _bitrate_for_frame_list.
  apply Nat.ltb_ge in Hlen. rewrite Hlen, Hhead, Hlast, Hk.
  assert (Hd : PrimFloat.sub (Py.float_of_field (FrameEntry.pts last_))
                 (Py.float_of_field (FrameEntry.pts first)) = nan).
  { destruct Hpts as [-> | ->]; simpl; [apply sub_nan_r|apply sub_nan_l]. }
  rewrite Hd. unfold Py.float_truediv.
  change (PrimFloat.eqb nan zero) with false. cbv iota. now rewrite div_nan_r.
Qed.

Lemma bitrate_without_pts_witness : _bitrate_for_frame_list untimed_first_chunk = inr nan.
Proof.
  eapply (bitrate_without_pts untimed_first_chunk).
  - simpl. lia.
  - reflexivity.
  - reflexivity.
  - left. reflexivity.
  - vm_compute. reflexivity.
Defined.

Lemma max_loop_nan (rest : list float) :
  fold_left (fun best item => if PrimFloat.ltb best item then item else best) rest nan = nan.
Proof.
  induction rest as [|y rest IH]; simpl; [reflexivity|]. now rewrite ltb_nan_l.
Qed.

Lemma min_loop_nan (rest : list float) :
  fold_left (fun best item => if PrimFloat.ltb item best then item else best) rest nan = nan.
Proof.
  induction rest as [|y rest IH]; simpl; [reflexivity|]. now rewrite ltb_nan_r.
Qed.

Lemma max_loop_skips_nan (rest : list float) :
  forall best,
    fold_left (fun best item => if PrimFloat.ltb best item then item else best) rest best =
    fold_left (fun best item => if PrimFloat.ltb best item then item else best)
      (List.filter (fun y => negb (is_nan y)) rest) best.
Proof.
  induction rest as [|y rest IH]; intros best; simpl; [reflexivity|].
  destruct (is_nan y) eqn:Hy; simpl.
  - apply is_nan_eq in Hy. subst y. rewrite ltb_nan_r. apply IH.
  - apply IH.
Qed.

Lemma min_loop_skips_nan (rest : list float) :
  forall best,
    fold_left (fun best item => if PrimFloat.ltb item best then item else best) rest best =
    fold_left (fun best item => if PrimFloat.ltb item best then item else best)
      (List.filter (fun y => negb (is_nan y)) rest) best.
Proof.
  induction rest as [|y rest IH]; intros best; simpl; [reflexivity|].
  destruct (is_nan y) eqn:Hy; simpl.
  - apply is_nan_eq in Hy. subst y. rewrite ltb_nan_l. apply IH.
  - apply IH.
Qed.

(** X5: how [_calculate_max_min_bitrate] treats not-a-number. When the
    series starts with [x], the extrema are those of [x] and the later
    bitrates that are numbers: a not-a-number bitrate after the first is
    ignored. When [x] itself is not-a-number, both extrema are
    not-a-number, whatever follows. *)
Theorem extrema_nan_policy (self : BitrateStats) (x : float) (rest : list float) :
  series_of self = inr (x :: rest) ->
  exists hi lo self' ev,
    _calculate_max_min_bitrate self = (inr (hi, lo), self', ev) /\
    max_bitrate self' = hi /\ min_bitrate self' = lo /\
    Py.max (x :: List.filter (fun y => negb (is_nan y)) rest) = inr hi /\
    Py.min (x :: List.filter (fun y => negb (is_nan y)) rest) = inr lo /\
    (is_nan x = true -> hi = nan /\ lo = nan).
Proof.
  intros Hs. rewrite calculate_max_min_eq, Hs. simpl Py.max. simpl Py.min. cbv iota.
  eexists _, _, _, _. split; [reflexivity|].
  split; [reflexivity|]. split; [reflexivity|].
  split; [f_equal; symmetry; apply max_loop_skips_nan|].
  split; [f_equal; symmetry; apply min_loop_skips_nan|].
  intros Hx. apply is_nan_eq in Hx. subst x.
  now rewrite max_loop_nan, min_loop_nan.
Qed.

Lemma extrema_nan_policy_witness :
  exists hi lo self' ev,
    _calculate_max_min_bitrate
      (set_frames (frames_of_packets three_seconds).1 (instance time)) =
    (inr (hi, lo), self', ev) /\
    max_bitrate self' = hi /\ min_bitrate self' = lo /\
    Py.max (nan :: List.filter (fun y => negb (is_nan y)) [nan; nan]) = inr hi /\
    Py.min (nan :: List.filter (fun y => negb (is_nan y)) [nan; nan]) = inr lo /\
    (is_nan nan = true -> hi = nan /\ lo = nan).
Proof.
  apply (extrema_nan_policy
           (set_frames (frames_of_packets three_seconds).1 (instance time)) nan [nan; nan]).
  vm_compute. reflexivity.
Defined.

(** ** The records and the warnings of the repair *)

Lemma fix_durations_pts_lookup (ret : list FrameEntry.t) (j : nat) :
  FrameEntry.pts <$> (_fix_durations ret).1 !! j = FrameEntry.pts <$> ret !! j.
Proof.
  destruct ((_fix_durations ret).1 !! j) as [frame'|] eqn:Hj.
  - now rewrite (fix_durations_pts _ _ _ Hj).
  - apply lookup_ge_None_1 in Hj. rewrite length_fix_durations in Hj.
    now rewrite (lookup_ge_None_2 _ _ Hj).
Qed.

Lemma pts_pair_ext (a b : list FrameEntry.t) (i : nat) :
  (forall j, FrameEntry.pts <$> a !! j = FrameEntry.pts <$> b !! j) ->
  delta_at a i = delta_at b i /\ pair_warning a i = pair_warning b i.
Proof.
  intros H. pose proof (H i) as Hi. pose proof (H (S i)) as Hs.
  unfold delta_at, pair_warning.
  destruct (a !! i) as [ai|], (b !! i) as [bi|]; simpl in Hi; try discriminate;
    destruct (a !! S i) as [an|], (b !! S i) as [bn|]; simpl in Hs; try discriminate;
    try (split; reflexivity).
  inversion Hi as [Hi']. inversion Hs as [Hs']. now rewrite Hi', Hs'.
Qed.

Lemma last_delta_ext (a b : list FrameEntry.t) (k : nat) :
  (forall j, FrameEntry.pts <$> a !! j = FrameEntry.pts <$> b !! j) ->
  last_delta a k = last_delta b k.
Proof.
  intros H. induction k as [|k IH]; simpl; [reflexivity|].
  rewrite (proj1 (pts_pair_ext a b k H)). now rewrite IH.
Qed.

(** X6: the records keep the packets, in their order: there are as many
    records as packets, and the record at position [i] has the index [i + 1],
    the size and the presentation time of packet [i], and is a key frame
    exactly when the packet's flags are ["K_"]. The repair changes only
    durations. *)
Theorem frames_keep_packets (info : list PacketInfo) :
  length (frames_of_packets info).1 = length info /\
  forall i p,
    info !! i = Some p ->
    exists frame,
      (frames_of_packets info).1 !! i = Some frame /\
      FrameEntry.n frame = Z.of_nat i + 1 /\
      FrameEntry.frame_type frame = (if String.eqb (flags p) "K_" then I_ else Non_I) /\
      FrameEntry.pts frame = pts_time p /\
      FrameEntry.size frame = packet_size p.
Proof.
  split; [apply length_frames_of_packets|].
  intros i p Hp. unfold frames_of_packets.
  destruct (default_duration info) as [d|]; simpl.
  - exists (frame_entry (Some d) (1 + Z.of_nat i) p).
    rewrite frame_entries_lookup, Hp. simpl. repeat split; lia.
  - destruct (lookup_lt_is_Some_2 (_fix_durations (frame_entries None 1 info)).1 i)
      as [frame' Hf'].
    { rewrite length_fix_durations, length_frame_entries. eapply lookup_lt_Some, Hp. }
    destruct (fix_durations_fields _ _ _ Hf') as (frame & Hf & Heq).
    rewrite frame_entries_lookup, Hp in Hf. simpl in Hf. inversion Hf; subst frame.
    exists frame'. split; [exact Hf'|]. rewrite Heq. simpl. repeat split; lia.
Qed.

Lemma frame_entries_no_duration (info : list PacketInfo) (idx : Z) (i : nat)
    (frame : FrameEntry.t) :
  Forall (fun p => duration_time p = None) info ->
  frame_entries None idx info !! i = Some frame ->
  FrameEntry.duration frame = None.
Proof.
  intros Hnone Hf. rewrite frame_entries_lookup in Hf.
  destruct (info !! i) as [p|] eqn:Hp; [|discriminate].
  simpl in Hf. inversion Hf; subst frame. simpl.
  now rewrite (proj1 (Forall_lookup _ _) Hnone i p Hp).
Qed.

(** X7: the durations after the repair, when no packet has an explicit
    duration. Every record but the last has the delta of its pair, and no
    duration when a time of the pair is missing; the last record has the
    most recent delta that could be computed, and no duration when there is
    none; with fewer than 2 packets no record has a duration. *)
Theorem repaired_durations (info : list PacketInfo) :
  Forall (fun p => duration_time p = None) info ->
  (forall i frame,
      (S i < length info)%nat ->
      (frames_of_packets info).1 !! i = Some frame ->
      FrameEntry.duration frame = delta_at (frames_of_packets info).1 i) /\
  (forall frame,
      (frames_of_packets info).1 !! (length info - 1)%nat = Some frame ->
      FrameEntry.duration frame =
      last_delta (frames_of_packets info).1 (length info - 1)) /\
  ((length info <= 1)%nat ->
   Forall (fun frame => FrameEntry.duration frame = None) (frames_of_packets info).1).
Proof.
  intros Hnone. unfold frames_of_packets.
  rewrite (default_duration_none info Hnone).
  set (ret := frame_entries None 1 info).
  assert (Hlen : length ret = length info) by apply length_frame_entries.
  assert (Hpts := fix_durations_pts_lookup ret).
  split; [|split].
  - intros i frame Hi Hf.
    destruct (lookup_lt_is_Some_2 ret i) as [f0 Hf0]; [lia|].
    rewrite (fix_durations_lookup ret i f0) in Hf by (lia || exact Hf0).
    rewrite (proj1 (pts_pair_ext _ _ i Hpts)).
    pose proof (frame_entries_no_duration info 1 i f0 Hnone Hf0) as Hd.
    inversion Hf. now destruct (delta_at ret i).
  - intros frame Hf. rewrite <- Hlen in *.
    destruct (lookup_lt_is_Some_2 ret (length ret - 1)%nat) as [f0 Hf0].
    { apply lookup_lt_Some in Hf. rewrite length_fix_durations in Hf. exact Hf. }
    rewrite (fix_durations_last ret f0 Hf0) in Hf.
    rewrite (last_delta_ext _ _ _ Hpts).
    pose proof (frame_entries_no_duration info 1 _ f0 Hnone Hf0) as Hd.
    inversion Hf. now destruct (last_delta ret _).
  - intros Hshort. unfold ret.
    destruct info as [|p [|q info]]; [constructor| |simpl in Hshort; lia].
    inversion Hnone as [|? ? Hp _]; subst.
    destruct p as [fl pt dt sz]. simpl in Hp. subst dt.
    cbn. repeat constructor.
Qed.

Lemma repaired_durations_witness :
  (forall i frame,
      (S i < length gap_and_step_back)%nat ->
      (frames_of_packets gap_and_step_back).1 !! i = Some frame ->
      FrameEntry.duration frame = delta_at (frames_of_packets gap_and_step_back).1 i) /\
  (forall frame,
      (frames_of_packets gap_and_step_back).1 !! (length gap_and_step_back - 1)%nat
        = Some frame ->
      FrameEntry.duration frame =
      last_delta (frames_of_packets gap_and_step_back).1 (length gap_and_step_back - 1)) /\
  ((length gap_and_step_back <= 1)%nat ->
   Forall (fun frame => FrameEntry.duration frame = None)
     (frames_of_packets gap_and_step_back).1).
Proof. apply repaired_durations. repeat constructor. Defined.

Example gap_and_step_back_durations :
  map FrameEntry.duration (frames_of_packets gap_and_step_back).1 =
  [None; None; Some (-1)%float; Some (-1)%float].
Proof. reflexivity. Qed.

Lemma fix_loop_log (ret : list FrameEntry.t) (k : nat) :
  (k <= length ret - 1)%nat ->
  fx_log (fold_left fix_step (seq 0 k) (fix_init ret)) =
  concat (map (pair_warning ret) (seq 0 k)).
Proof.
  induction k as [|k IH]; intros Hk; [reflexivity|].
  rewrite seq_S, fold_left_app, map_app, concat_app. simpl.
  rewrite app_nil_r, <- IH by lia.
  destruct (fix_loop_prefix ret k) as [Hret _]; [lia|]. cbv zeta in Hret.
  set (st := fold_left fix_step (seq 0 k) (fix_init ret)) in *.
  destruct (lookup_lt_is_Some_2 ret k) as [curr Hcurr]; [lia|].
  destruct (lookup_lt_is_Some_2 ret (S k)) as [next Hnext]; [lia|].
  assert (Hc : fx_ret st !! k = Some curr).
  { rewrite Hret, Hcurr. simpl. now rewrite repaired_later. }
  assert (Hn : fx_ret st !! S k = Some next).
  { rewrite Hret, Hnext. simpl. rewrite repaired_later; [reflexivity|lia]. }
  unfold fix_step, pair_warning. rewrite Hc, Hn, Hcurr, Hnext.
  destruct (FrameEntry.pts curr) as [p|], (FrameEntry.pts next) as [q|]; simpl;
    try reflexivity.
  destruct (PrimFloat.ltb q p); [reflexivity|now rewrite app_nil_r].
Qed.

(** X8: the warnings of the repair. With an explicit duration somewhere
    nothing is logged. Otherwise the pairs of consecutive records are
    visited in order, and each pair logs one warning when one of its times is
    missing, one warning when the next time is less than the current one,
    and nothing when the times are defined and do not decrease. *)
Theorem repair_warnings (info : list PacketInfo) :
  (frames_of_packets info).2 =
  match default_duration info with
  | Some _ => []
  | None =>
      concat (map (pair_warning (frames_of_packets info).1) (seq 0 (length info - 1)))
  end.
Proof.
  unfold frames_of_packets. destruct (default_duration info) as [d|]; [reflexivity|].
  set (ret := frame_entries None 1 info).
  assert (Hlen : length ret = length info) by apply length_frame_entries.
  assert (Hlog : (_fix_durations ret).2 = fx_log (fix_loop ret)).
  { unfold _fix_durations. now destruct (fx_last_duration _). }
  rewrite Hlog. unfold fix_loop. fold (fix_init ret).
  rewrite fix_loop_log by lia. rewrite Hlen. f_equal.
  apply map_ext. intros i. symmetry.
  apply (pts_pair_ext _ _ i (fix_durations_pts_lookup ret)).
Qed.

Example gap_and_step_back_warnings :
  (frames_of_packets gap_and_step_back).2 = [warn_nan; warn_nan; warn_non_monotonic].
Proof. reflexivity. Qed.

(** ** The constructor *)

Lemma ltb_not_eqb (x y : float) : PrimFloat.ltb x y = true -> PrimFloat.eqb x y = false.
Proof.
  rewrite ltb_spec, FloatAxioms.eqb_spec. unfold SFltb, SFeqb.
  destruct (SFcompare _ _) as [[| |]|]; congruence.
Qed.

Lemma negative_chunk_size (chunk_size_ : float) :
  negb (PrimFloat.eqb chunk_size_ zero) && PrimFloat.ltb chunk_size_ zero =
  PrimFloat.ltb chunk_size_ zero.
Proof.
  destruct (PrimFloat.ltb chunk_size_ zero) eqn:Hlt.
  - now rewrite (ltb_not_eqb _ _ Hlt).
  - apply andb_false_r.
Qed.

(** X9: the constructor returns an instance exactly when the stream type is
    ["audio"] or ["video"], the aggregation is ["time"] or ["gop"], GOP
    aggregation is asked for video only, and the chunk size is not less than
    0 (a chunk size of 0 is accepted); in every other case it raises
    [ValueError]. The instance has the given settings, no frames, no
    statistics and an empty cache. *)
Theorem init_accepts (input_file_ stream_type_ aggregation_ : string)
    (chunk_size_ : float) (dry_run_ : bool) :
  ((exists self,
       __init__ input_file_ stream_type_ aggregation_ chunk_size_ dry_run_ = inr self /\
       input_file self = input_file_ /\ chunk_size self = chunk_size_ /\
       dry_run self = dry_run_ /\ frames self = [] /\ bitrate_stats self = None /\
       _chunks self = [] /\
       (stream_type self = video <-> stream_type_ = "video"%string) /\
       (aggregation self = gop <-> aggregation_ = "gop"%string)) <->
   (stream_type_ = "audio" \/ stream_type_ = "video")%string /\
   (aggregation_ = "time" \/ aggregation_ = "gop")%string /\
   (aggregation_ = "gop" -> stream_type_ = "video")%string /\
   PrimFloat.ltb chunk_size_ zero = false) /\
  ((exists msg,
       __init__ input_file_ stream_type_ aggregation_ chunk_size_ dry_run_ =
       inl (Py.ValueError msg)) \/
   (exists self,
       __init__ input_file_ stream_type_ aggregation_ chunk_size_ dry_run_ = inr self)).
Proof.
  unfold __init__. rewrite negative_chunk_size.
  destruct (String.eqb_spec stream_type_ "audio") as [->|Ha];
    [|destruct (String.eqb_spec stream_type_ "video") as [->|Hv]];
    (destruct (String.eqb_spec aggregation_ "time") as [->|Ht];
     [|destruct (String.eqb_spec aggregation_ "gop") as [->|Hg]]);
    destruct (PrimFloat.ltb chunk_size_ zero) eqn:Hlt; simpl;
    (split; [split|eauto]);
    try (intros (self & H & _); discriminate H);
    try (intros (H1 & H2 & H3 & H4); exfalso;
         first [discriminate H4
               | destruct H1 as [H1|H1]; congruence
               | destruct H2 as [H2|H2]; congruence
               | specialize (H3 eq_refl); discriminate H3]);
    try (intros _; eexists; split; [reflexivity|]; simpl;
         repeat split; try reflexivity; try discriminate; intros H; discriminate H);
    try (intros _; repeat split; auto; discriminate).
Qed.

(** ** What [calculate_statistics] raises and returns *)

Section Outcomes.
Context {numpy : Numpy}.

Lemma calculate_statistics_dry_run (probe : ffprobe) (self : BitrateStats) :
  dry_run self = true ->
  calculate_statistics probe self = (inl (Py.SystemExit 0), self, dry_run_events self).
Proof.
  intros Hdry. rewrite calculate_statistics_eq.
  unfold bind at 1. unfold _calculate_frame_sizes, run_command, dry_run_events.
  unfold_monad. now rewrite Hdry.
Qed.

Lemma calculate_statistics_probe_failed (stderr : string) (self : BitrateStats) :
  dry_run self = false ->
  calculate_statistics (ProbeFailed stderr) self =
  (inl (Py.SystemExit 1), self, failed_probe_events self stderr).
Proof.
  intros Hdry. rewrite calculate_statistics_eq.
  unfold bind at 1. unfold _calculate_frame_sizes, run_command, failed_probe_events.
  unfold_monad. now rewrite Hdry.
Qed.

Lemma calculate_statistics_packets (info : list PacketInfo) (self : BitrateStats) :
  dry_run self = false ->
  calculate_statistics (ProbePackets info) self =
  (let '(r, self', ev) := outcome (set_frames (frames_of_packets info).1 self) in
   (r, self', probe_events self info ++ ev)).
Proof.
  intros Hdry. rewrite calculate_statistics_eq. unfold bind.
  now rewrite (calculate_frame_sizes_packets self info Hdry), after_probe_eq.
Qed.

(** X10: a dry run and a failing ffprobe end the computation with
    [SystemExit], code 0 and code 1, and leave the instance as it was; a dry
    run logs the command line and does not run it. *)
Theorem calculate_statistics_exits (probe : ffprobe) (self : BitrateStats) :
  (dry_run self = true ->
   calculate_statistics probe self = (inl (Py.SystemExit 0), self, dry_run_events self)) /\
  (forall stderr,
      dry_run self = false -> probe = ProbeFailed stderr ->
      calculate_statistics probe self =
      (inl (Py.SystemExit 1), self, failed_probe_events self stderr)).
Proof.
  split.
  - apply calculate_statistics_dry_run.
  - intros stderr Hdry ->. now apply calculate_statistics_probe_failed.
Qed.

(** X11: when the sum of the known durations, rounded to 2 digits, is zero
    (no known duration, or a stream of less than 5 milliseconds),
    [calculate_statistics] raises [ZeroDivisionError]: the frame rate divides
    by the duration. *)
Theorem zero_duration_raises (self : BitrateStats) (info : list PacketInfo) :
  dry_run self = false ->
  PrimFloat.eqb
    (Py.round (Py.sum_float (known_durations (frames_of_packets info).1)) 2) zero = true ->
  calculate_statistics (ProbePackets info) self =
  (inl Py.ZeroDivisionError,
   set_duration (Py.round (Py.sum_float (known_durations (frames_of_packets info).1)) 2)
     (set_frames (frames_of_packets info).1 self),
   probe_events self info).
Proof.
  intros Hdry Hzero. rewrite (calculate_statistics_packets info self Hdry).
  unfold outcome. attributes. cbv zeta. unfold Py.float_truediv at 1.
  rewrite Hzero. now rewrite app_nil_r.
Qed.

(** What a run of the steps after the probe that raises has raised, and
    what it has left of the statistics. *)
Lemma outcome_raises (self : BitrateStats) (e : Py.exn) (self' : BitrateStats)
    (ev : list event) :
  outcome self = (inl e, self', ev) ->
  arithmetic e /\ bitrate_stats self' = bitrate_stats self.
Proof.
  unfold outcome. cbv zeta.
  destruct (Py.float_truediv (Py.float_of_len _) _) as [e1|v] eqn:Hfps.
  { intros H. inversion H; subst. split; [|reflexivity].
    left. eapply float_truediv_raises, Hfps. }
  destruct (series_of self) as [e1|chunks] eqn:Hs.
  { intros H. inversion H; subst. split; [|reflexivity].
    unfold series_of in Hs. destruct (_chunks self); [|discriminate].
    eapply bitrate_series_raises, Hs. }
  pose proof (series_of_length self chunks Hs) as Hlen.
  destruct (Py.max chunks) as [e1|hi] eqn:Hmax;
    [exfalso; eapply max_of_empty_series; eauto|].
  destruct (Py.min chunks) as [e1|lo] eqn:Hmin;
    [exfalso; eapply min_of_empty_series; eauto|].
  destruct (Py.int_truediv _ 1000) as [e1|kbit] eqn:Hkbit.
  { intros H. inversion H; subst. split; [|reflexivity].
    right. eapply int_truediv_1000_raises, Hkbit. }
  destruct (Py.float_truediv kbit _) as [e1|avg] eqn:Havg.
  { intros H. inversion H; subst. split; [|reflexivity].
    left. eapply float_truediv_raises, Havg. }
  destruct (Py.float_truediv hi avg) as [e1|factor] eqn:Hfactor.
  { intros H. inversion H; subst. split; [|reflexivity].
    left. eapply float_truediv_raises, Hfactor. }
  discriminate.
Qed.

(** What a run of the steps after the probe that returns has put in the
    summary and left in the instance. *)
Lemma outcome_returns (self : BitrateStats) (stats : Summary.t) (self' : BitrateStats)
    (ev : list event) :
  outcome self = (inr stats, self', ev) ->
  bitrate_stats self' = Some stats /\
  series_of self = inr (_chunks self') /\
  Py.max (_chunks self') = inr (max_bitrate self') /\
  Py.min (_chunks self') = inr (min_bitrate self') /\
  Summary.bitrate_per_chunk stats =
    map (fun b => Py.round b (rounding_factor self)) (_chunks self') /\
  Summary.max_bitrate stats = Py.round (max_bitrate self') (rounding_factor self) /\
  Summary.min_bitrate stats = Py.round (min_bitrate self') (rounding_factor self) /\
  Summary.avg_bitrate_over_chunks stats =
    np_round (np_mean (_chunks self')) (rounding_factor self) /\
  (exists avg factor,
      avg_bitrate self' = Some avg /\
      Py.float_truediv (max_bitrate self') avg = inr factor /\
      Summary.max_bitrate_factor stats = Py.round factor (rounding_factor self)) /\
  Summary.num_frames stats = length (frames self) /\
  Summary.input_file stats = input_file self /\
  Summary.stream_type stats = stream_type self /\
  Summary.aggregation stats = aggregation self /\
  Summary.chunk_size stats = chunk_size self /\
  frames self' = frames self /\ aggregation self' = aggregation self /\
  chunk_size self' = chunk_size self.
Proof.
  unfold outcome, assembled. cbv zeta.
  destruct (Py.float_truediv (Py.float_of_len _) _) as [e|v]; [discriminate|].
  destruct (series_of self) as [e|chunks]; [discriminate|].
  destruct (Py.max chunks) as [e|hi] eqn:Hmax; [discriminate|].
  destruct (Py.min chunks) as [e|lo] eqn:Hmin; [discriminate|].
  destruct (Py.int_truediv _ 1000) as [e|kbit]; [discriminate|].
  destruct (Py.float_truediv kbit _) as [e|avg]; [discriminate|].
  destruct (Py.float_truediv hi avg) as [e|factor] eqn:Hfactor; [discriminate|].
  intros H. inversion H; subst. attributes.
  repeat split; try reflexivity; try assumption.
  exists avg, factor. now repeat split.
Qed.


End Outcomes.

Lemma zero_duration_raises_witness :
  calculate_statistics (numpy := sequential_numpy) (ProbePackets short_packet)
    (instance time) =
  (inl Py.ZeroDivisionError,
   set_duration
     (Py.round (Py.sum_float (known_durations (frames_of_packets short_packet).1)) 2)
     (set_frames (frames_of_packets short_packet).1 (instance time)),
   probe_events (instance time) short_packet).
Proof.
  apply (zero_duration_raises (numpy := sequential_numpy)).
  - reflexivity.
  - vm_compute. reflexivity.
Defined.

Section Summaries.
Context {numpy : Numpy}.

(** X13: the summary of a run on an instance without cached series. There
    is one reported bitrate per chunk of the chunker, in chunk order, each
    the rounded bitrate of its chunk; the reported extrema are the rounded
    [max] and [min] of the unrounded series, the reported mean is numpy's
    mean of it; the frame count is the number of packets; and the instance
    keeps the series and the summary. *)
Theorem summary_matches_chunks (info : list PacketInfo) (self : BitrateStats)
    (stats : Summary.t) (self' : BitrateStats) (ev : list event) :
  _chunks self = [] ->
  calculate_statistics (ProbePackets info) self = (inr stats, self', ev) ->
  exists series hi lo,
    comprehension _bitrate_for_frame_list
      (aggregation_chunks (aggregation self) (chunk_size self)
         (frames_of_packets info).1) = inr series /\
    length (Summary.bitrate_per_chunk stats) =
      length (aggregation_chunks (aggregation self) (chunk_size self)
                (frames_of_packets info).1) /\
    Summary.bitrate_per_chunk stats =
      map (fun b => Py.round b (rounding_factor self)) series /\
    Py.max series = inr hi /\ Py.min series = inr lo /\
    Summary.max_bitrate stats = Py.round hi (rounding_factor self) /\
    Summary.min_bitrate stats = Py.round lo (rounding_factor self) /\
    Summary.avg_bitrate_over_chunks stats =
      np_round (np_mean series) (rounding_factor self) /\
    Summary.num_frames stats = length info /\
    _chunks self' = series /\ bitrate_stats self' = Some stats.
Proof.
  intros Hcache Hrun.
  destruct (calculate_statistics_success _ _ _ _ _ Hrun) as (info' & ev' & Hp & _ & Ho & _).
  inversion Hp; subst info'.
  destruct (outcome_returns _ _ _ _ Ho)
    as (Hbs & Hs & Hmax & Hmin & Hper & Hhi & Hlo & Hmean & _ & Hn & _).
  attributes. unfold series_of, bitrate_series in Hs. attributes. rewrite Hcache in Hs.
  exists (_chunks self'), (max_bitrate self'), (min_bitrate self').
  split; [exact Hs|]. split.
  { rewrite Hper, length_map. now apply comprehension_length in Hs. }
  repeat split; try assumption. now rewrite Hn, length_frames_of_packets.
Qed.

(** X14: the whole-stream figures do not depend on the chunking. Two
    instances on the same file and stream with the same rounding, whatever
    their aggregation modes and chunk sizes, report the same duration, frame
    count, average frame rate and average bitrate whenever both return. *)
Theorem whole_stream_figures_ignore_chunking (probe : ffprobe)
    (self1 self2 : BitrateStats) (stats1 stats2 : Summary.t)
    (self1' self2' : BitrateStats) (ev1 ev2 : list event) :
  input_file self1 = input_file self2 ->
  stream_type self1 = stream_type self2 ->
  rounding_factor self1 = rounding_factor self2 ->
  calculate_statistics probe self1 = (inr stats1, self1', ev1) ->
  calculate_statistics probe self2 = (inr stats2, self2', ev2) ->
  Summary.duration stats1 = Summary.duration stats2 /\
  Summary.num_frames stats1 = Summary.num_frames stats2 /\
  Summary.avg_fps stats1 = Summary.avg_fps stats2 /\
  Summary.avg_bitrate stats1 = Summary.avg_bitrate stats2.
Proof.
  intros _ _ Hrf Hrun1 Hrun2.
  destruct (calculate_statistics_success _ _ _ _ _ Hrun1) as (info & e1 & Hp1 & _ & Ho1 & _).
  destruct (calculate_statistics_success _ _ _ _ _ Hrun2) as (info' & e2 & Hp2 & _ & Ho2 & _).
  rewrite Hp1 in Hp2. inversion Hp2; subst info'.
  destruct (outcome_success _ _ _ _ Ho1)
    as (_ & _ & Hfps1 & (k1 & a1 & Hk1 & Ha1 & _ & Hs1) & Hd1 & Hf1 & Hn1).
  destruct (outcome_success _ _ _ _ Ho2)
    as (_ & _ & Hfps2 & (k2 & a2 & Hk2 & Ha2 & _ & Hs2) & Hd2 & Hf2 & Hn2).
  attributes. rewrite Hrf in *.
  rewrite Hfps1 in Hfps2. rewrite Hk1 in Hk2. inversion Hk2; subst k2.
  rewrite Ha1 in Ha2. inversion Ha2; subst a2.
  inversion Hfps2 as [Hfps]. rewrite Hd1, Hd2, Hn1, Hn2, Hf1, Hf2, Hs1, Hs2, Hfps.
  now repeat split.
Qed.

End Summaries.

Lemma summary_matches_chunks_witness :
  exists stats,
    (calculate_statistics (numpy := sequential_numpy) (ProbePackets two_gops)
       (instance gop)).1.1 = inr stats /\
    length (Summary.bitrate_per_chunk stats) =
      length (aggregation_chunks gop 1 (frames_of_packets two_gops).1) /\
    Summary.num_frames stats = length two_gops.
Proof.
  destruct (calculate_statistics (numpy := sequential_numpy) (ProbePackets two_gops)
              (instance gop)) as [[[e|stats] self'] ev] eqn:Hrun;
    [vm_compute in Hrun; discriminate|].
  exists stats. split; [reflexivity|].
  destruct (summary_matches_chunks (numpy := sequential_numpy) two_gops (instance gop)
              stats self' ev eq_refl Hrun)
    as (series & hi & lo & _ & Hlen & _ & _ & _ & _ & _ & _ & Hn & _).
  now split.
Defined.

Lemma whole_stream_figures_ignore_chunking_witness :
  exists stats1 stats2,
    (calculate_statistics (numpy := sequential_numpy) (ProbePackets two_gops)
       (instance gop)).1.1 = inr stats1 /\
    (calculate_statistics (numpy := sequential_numpy) (ProbePackets two_gops)
       instance_two_seconds).1.1 = inr stats2 /\
    Summary.duration stats1 = Summary.duration stats2 /\
    Summary.num_frames stats1 = Summary.num_frames stats2 /\
    Summary.avg_fps stats1 = Summary.avg_fps stats2 /\
    Summary.avg_bitrate stats1 = Summary.avg_bitrate stats2.
Proof.
  destruct (calculate_statistics (numpy := sequential_numpy) (ProbePackets two_gops)
              (instance gop)) as [[[e|stats1] s1] ev1] eqn:Hrun1;
    [vm_compute in Hrun1; discriminate|].
  destruct (calculate_statistics (numpy := sequential_numpy) (ProbePackets two_gops)
              instance_two_seconds) as [[[e|stats2] s2] ev2] eqn:Hrun2;
    [vm_compute in Hrun2; discriminate|].
  exists stats1, stats2. split; [reflexivity|]. split; [reflexivity|].
  exact (whole_stream_figures_ignore_chunking (numpy := sequential_numpy)
           (ProbePackets two_gops) (instance gop) instance_two_seconds
           stats1 stats2 s1 s2 ev1 ev2 eq_refl eq_refl eq_refl Hrun1 Hrun2).
Defined.

Example two_gops_in_two_second_chunks :
  bitrate_series (set_frames (frames_of_packets two_gops).1 instance_two_seconds) =
  inr [24%float; 16%float; nan].
Proof. vm_compute. reflexivity. Qed.

Section Output.
Context {numpy : Numpy} {rendering : Rendering}.

Lemma outcome_keeps_rounding (self : BitrateStats) (r : Py.result Summary.t)
    (self' : BitrateStats) (ev : list event) :
  outcome self = (r, self', ev) -> rounding_factor self' = rounding_factor self.
Proof.
  unfold outcome. cbv zeta.
  repeat match goal with
         | |- context [match ?x with inl _ => _ | inr _ => _ end] => destruct x
         end;
    intros H; inversion H; subst; reflexivity.
Qed.

(** X15: the cache outlives the input. Once a call has returned, a later
    call on the same instance reports the bitrate series, the extrema and
    the mean over chunks of that first call, even when ffprobe now gives
    other packets; the frame count follows the new packets. *)
Theorem cached_series_is_reused (info1 info2 : list PacketInfo) (self : BitrateStats)
    (stats1 stats2 : Summary.t) (self1 self2 : BitrateStats) (ev1 ev2 : list event) :
  calculate_statistics (ProbePackets info1) self = (inr stats1, self1, ev1) ->
  calculate_statistics (ProbePackets info2) self1 = (inr stats2, self2, ev2) ->
  Summary.bitrate_per_chunk stats2 = Summary.bitrate_per_chunk stats1 /\
  Summary.max_bitrate stats2 = Summary.max_bitrate stats1 /\
  Summary.min_bitrate stats2 = Summary.min_bitrate stats1 /\
  Summary.avg_bitrate_over_chunks stats2 = Summary.avg_bitrate_over_chunks stats1 /\
  Summary.num_frames stats2 = length info2.
Proof.
  intros Hrun1 Hrun2.
  destruct (calculate_statistics_success _ _ _ _ _ Hrun1) as (i1 & e1 & Hp1 & _ & Ho1 & _).
  destruct (calculate_statistics_success _ _ _ _ _ Hrun2) as (i2 & e2 & Hp2 & _ & Ho2 & _).
  inversion Hp1; subst i1. inversion Hp2; subst i2.
  pose proof (outcome_keeps_rounding _ _ _ _ Ho1) as Hrf. attributes.
  destruct (outcome_returns _ _ _ _ Ho1)
    as (_ & _ & Hmax1 & Hmin1 & Hper1 & Hhi1 & Hlo1 & Hmean1 & _).
  destruct (outcome_returns _ _ _ _ Ho2)
    as (_ & Hs2 & Hmax2 & Hmin2 & Hper2 & Hhi2 & Hlo2 & Hmean2 & _ & Hn2 & _).
  attributes. unfold series_of in Hs2. attributes.
  destruct (_chunks self1) as [|c chunks] eqn:Hc; [discriminate Hmax1|].
  inversion Hs2 as [Hsame]. rewrite <- Hsame in *.
  rewrite Hmax1 in Hmax2. rewrite Hmin1 in Hmin2.
  inversion Hmax2 as [Hhi]. inversion Hmin2 as [Hlo].
  rewrite Hper2, Hper1, Hhi2, Hhi1, Hlo2, Hlo1, Hmean2, Hmean1, Hrf, Hhi, Hlo, Hn2.
  repeat split; try reflexivity. apply length_frames_of_packets.
Qed.

Lemma get_json_after_outcome (self : BitrateStats) (r : Py.result Summary.t)
    (self' : BitrateStats) (ev : list event) :
  bitrate_stats self = None ->
  outcome self = (r, self', ev) ->
  bitrate_stats self' = match r with inr stats => Some stats | inl _ => None end.
Proof.
  intros Hnone Ho. destruct r as [e|stats].
  - destruct (outcome_raises _ _ _ _ Ho) as [_ H]. now rewrite H.
  - now destruct (outcome_returns _ _ _ _ Ho) as [H _].
Qed.

(** X16: output follows computation. On an instance that holds no
    statistics yet, after [calculate_statistics] has returned a summary
    [get_json], [get_csv] and [print_statistics] render that summary; after
    it has raised, they raise [RuntimeError]. A format other than ["csv"]
    and ["json"] makes [print_statistics] raise [ValueError] in every
    state. *)
Theorem output_follows_computation (probe : ffprobe) (self : BitrateStats) :
  bitrate_stats self = None ->
  match calculate_statistics probe self with
  | (inr stats, self', _) =>
      get_json self' = inr (json_dumps stats) /\
      get_csv self' = inr (to_csv stats) /\
      print_statistics "json" self' = inr (json_dumps stats) /\
      print_statistics "csv" self' = inr (to_csv stats)
  | (inl _, self', _) =>
      get_json self' = inl (Py.RuntimeError "No bitrate stats available") /\
      get_csv self' = inl (Py.RuntimeError "No bitrate stats available") /\
      print_statistics "json" self' = inl (Py.RuntimeError "No bitrate stats available") /\
      print_statistics "csv" self' = inl (Py.RuntimeError "No bitrate stats available")
  end /\
  (forall output_format self',
      output_format <> "csv"%string -> output_format <> "json"%string ->
      print_statistics output_format self' = inl (Py.ValueError "Invalid output format")).
Proof.
  intros Hnone. split.
  - assert (Hstats : match calculate_statistics probe self with
                     | (r, self', _) =>
                         bitrate_stats self' =
                         match r with inr stats => Some stats | inl _ => None end
                     end).
    { destruct (dry_run self) eqn:Hdry.
      { now rewrite (calculate_statistics_dry_run probe self Hdry). }
      destruct probe as [stderr|info].
      { now rewrite (calculate_statistics_probe_failed stderr self Hdry). }
      rewrite (calculate_statistics_packets info self Hdry).
      destruct (outcome _) as [[r self'] ev] eqn:Ho.
      eapply get_json_after_outcome, Ho. exact Hnone. }
    destruct (calculate_statistics probe self) as [[[e|stats] self'] ev];
      unfold print_statistics, get_json, get_csv; simpl; now rewrite Hstats.
  - intros output_format self' Hcsv Hjson. unfold print_statistics.
    apply String.eqb_neq in Hcsv. apply String.eqb_neq in Hjson.
    now rewrite Hcsv, Hjson.
Qed.

End Output.

#[local] Existing Instance constant_rendering.

Lemma output_follows_computation_witness :
  match calculate_statistics (numpy := sequential_numpy) (ProbePackets two_gops)
          (instance gop) with
  | (inr stats, self', _) =>
      get_json self' = inr (json_dumps stats) /\
      get_csv self' = inr (to_csv stats) /\
      print_statistics "json" self' = inr (json_dumps stats) /\
      print_statistics "csv" self' = inr (to_csv stats)
  | (inl _, self', _) =>
      get_json self' = inl (Py.RuntimeError "No bitrate stats available") /\
      get_csv self' = inl (Py.RuntimeError "No bitrate stats available") /\
      print_statistics "json" self' = inl (Py.RuntimeError "No bitrate stats available") /\
      print_statistics "csv" self' = inl (Py.RuntimeError "No bitrate stats available")
  end /\
  (forall output_format self',
      output_format <> "csv"%string -> output_format <> "json"%string ->
      print_statistics output_format self' =
      inl (Py.ValueError "Invalid output format")).
Proof.
  apply (output_follows_computation (numpy := sequential_numpy)
           (rendering := constant_rendering)).
  reflexivity.
Defined.

Lemma cached_series_is_reused_witness :
  exists stats1 self1 stats2,
    (calculate_statistics (numpy := sequential_numpy) (ProbePackets two_gops)
       (instance gop)).1 = (inr stats1, self1) /\
    (calculate_statistics (numpy := sequential_numpy) (ProbePackets three_seconds)
       self1).1.1 = inr stats2 /\
    Summary.bitrate_per_chunk stats2 = Summary.bitrate_per_chunk stats1 /\
    Summary.num_frames stats2 = length three_seconds.
Proof.
  destruct (calculate_statistics (numpy := sequential_numpy) (ProbePackets two_gops)
              (instance gop)) as [[[e|stats1] self1] ev1] eqn:Hrun1;
    [vm_compute in Hrun1; discriminate|].
  destruct (calculate_statistics (numpy := sequential_numpy) (ProbePackets three_seconds)
              self1) as [[[e|stats2] self2] ev2] eqn:Hrun2.
  { exfalso. vm_compute in Hrun1. inversion Hrun1; subst.
    vm_compute in Hrun2. discriminate. }
  exists stats1, self1, stats2. split; [reflexivity|]. split; [now rewrite Hrun2|].
  destruct (cached_series_is_reused (numpy := sequential_numpy)
              two_gops three_seconds (instance gop) stats1 stats2 self1 self2 ev1 ev2
              Hrun1 Hrun2) as (H1 & _ & _ & _ & H5).
  now split.
Defined.
